(** * Rate limiting and retry layer of the Telegram HTTP client and core

    A shallow embedding of the rate-limiting code of
    [telegram_client.py] (class [TelegramClient]) and
    [telegram_core.py] (class [TelegramCore]).

    Conventions of the embedding.
    - Python floats are idealised as rationals ([Q]): no rounding, no
      [inf], no [nan].  Equalities between computed times are stated with
      [==] ([Qeq]).  A decoded JSON number is a finite rational; the
      literals [NaN] and [Infinity] that [json] accepts are left out.
    - Text is ASCII: [str.upper], the regular-expression classes [\d] and
      [\s] are modelled on ASCII characters only.
    - Decoded JSON values are the type [json]; a Python [dict] decoded from
      JSON is an association list whose lookup returns the first binding.
    - Library functions whose code is not part of the repository
      ([float] on a string, [str] on a non-string, [json.loads]) are
      variables of the section that models the client. *)

From Stdlib Require Import ZArith QArith Qminmax Lqa Lia List Ascii String Bool
  DecimalString.
From stdpp Require Import gmap strings.
Import ListNotations.

Set Warnings "-register-all".

Local Open Scope Q_scope.
Local Open Scope string_scope.

(** ** Decoded JSON values *)

Inductive json : Type :=
| JNull
| JBool (b : bool)
| JNum (q : Q)
| JStr (s : string)
| JList (l : list json)
| JDict (d : list (string * json)).

(** [d.get(key, default)] on an association list. *)
Fixpoint assoc_get (d : list (string * json)) (key : string) (default : json) : json :=
  match d with
  | [] => default
  | (k, v) :: d' => if String.eqb k key then v else assoc_get d' key default
  end.

(** [key in d]. *)
Fixpoint assoc_mem (d : list (string * json)) (key : string) : bool :=
  match d with
  | [] => false
  | (k, _) :: d' => if String.eqb k key then true else assoc_mem d' key
  end.

(** Python truth value of a decoded JSON value ([bool(x)]). *)
Definition truthy (j : json) : bool :=
  match j with
  | JNull => false
  | JBool b => b
  | JNum q => negb (Qeq_bool q 0)
  | JStr s => negb (String.eqb s "")
  | JList l => match l with [] => false | _ => true end
  | JDict d => match d with [] => false | _ => true end
  end.

(** [a or b]: the first operand when it is truthy, else the second. *)
Definition py_or (a b : json) : json := if truthy a then a else b.

(** ** Exceptions and results *)

Inductive exn : Type :=
| RateLimitError (retry_after : Q)
| FloodWaitError (wait_time : Q)
| TelegramClientError (msg : json)
| HTTPStatusError (status_code : Z)
| RequestError
| ValueError
| TypeError
| AttributeError
| TelethonFloodWaitError (seconds : Z)   (* telethon.errors.FloodWaitError *)
| OtherException                         (* any other exception of a provider call *)
| OverflowError
| IndexError.

Inductive result (A : Type) : Type :=
| Ok (a : A)
| Raise (e : exn).
Arguments Ok {A} a.
Arguments Raise {A} e.

(** ** ASCII text: [str.upper] and the pattern [FLOOD_WAIT[_\s]+(\d+)] *)

Definition is_lower (c : ascii) : bool :=
  let n := nat_of_ascii c in (97 <=? n)%nat && (n <=? 122)%nat.

Definition upper_ascii (c : ascii) : ascii :=
  if is_lower c then ascii_of_nat (nat_of_ascii c - 32) else c.

Fixpoint str_upper (s : string) : string :=
  match s with
  | EmptyString => EmptyString
  | String c s' => String (upper_ascii c) (str_upper s')
  end.

(** [\d] on ASCII. *)
Definition is_digit (c : ascii) : bool :=
  let n := nat_of_ascii c in (48 <=? n)%nat && (n <=? 57)%nat.

(** [\s] on ASCII: tab, newline, vertical tab, form feed, carriage return,
    the four separators 0x1c to 0x1f, and space. *)
Definition is_space (c : ascii) : bool :=
  let n := nat_of_ascii c in
  ((9 <=? n)%nat && (n <=? 13)%nat) || ((28 <=? n)%nat && (n <=? 32)%nat).

(** The class [[_\s]]. *)
Definition is_sep (c : ascii) : bool :=
  Ascii.eqb c "_"%char || is_space c.

(** Longest prefix of [s] whose characters satisfy [p], and the rest. *)
Fixpoint span (p : ascii -> bool) (s : string) : string * string :=
  match s with
  | EmptyString => (EmptyString, EmptyString)
  | String c s' =>
      if p c then let '(a, b) := span p s' in (String c a, b)
      else (EmptyString, s)
  end.

(** [s] without the prefix [pre], when it starts with it. *)
Fixpoint strip_prefix (pre s : string) : option string :=
  match pre, s with
  | EmptyString, _ => Some s
  | String a pre', String b s' =>
      if Ascii.eqb a b then strip_prefix pre' s' else None
  | String _ _, EmptyString => None
  end.

(** A match of the pattern anchored at the start of [s]: the literal, a
    non-empty greedy run of separators, a non-empty greedy run of digits
    (the captured group).  The two classes are disjoint, so giving back
    separators never makes a failed match succeed. *)
Definition flood_match_here (s : string) : option string :=
  match strip_prefix "FLOOD_WAIT" s with
  | None => None
  | Some rest =>
      let '(seps, rest') := span is_sep rest in
      match seps with
      | EmptyString => None
      | _ =>
          let '(ds, _) := span is_digit rest' in
          match ds with
          | EmptyString => None
          | _ => Some ds
          end
      end
  end.

(** [re.search(r'FLOOD_WAIT[_\s]+(\d+)', s)]: group 1 of the leftmost match. *)
Fixpoint re_search_flood_wait (s : string) : option string :=
  match flood_match_here s with
  | Some ds => Some ds
  | None =>
      match s with
      | EmptyString => None
      | String _ s' => re_search_flood_wait s'
      end
  end.

(** Value of a string of decimal digits, most significant first. *)
Fixpoint digits_value_from (acc : Z) (ds : string) : Z :=
  match ds with
  | EmptyString => acc
  | String c ds' =>
      digits_value_from (10 * acc + (Z.of_nat (nat_of_ascii c) - 48))%Z ds'
  end.

Definition digits_value (ds : string) : Z := digits_value_from 0%Z ds.

(** ["FLOOD_WAIT" in s]. *)
Fixpoint contains (needle s : string) : bool :=
  match strip_prefix needle s with
  | Some _ => true
  | None =>
      match s with
      | EmptyString => false
      | String _ s' => contains needle s'
      end
  end.

(** ** Numbers *)

(** Python's [a < b] on floats. *)
Definition Qltb (a b : Q) : bool := negb (Qle_bool b a).

(** Python's [min(a, b)]: [b] when [b < a], else [a]. *)
Definition py_min (a b : Q) : Q := if Qltb b a then b else a.

(** [2 ** attempt] for a loop index. *)
Definition pow2 (attempt : nat) : Q := inject_Z (2 ^ Z.of_nat attempt).

(** ** HTTP responses *)

Record response : Type := mkResponse {
  status_code : Z;
  headers : list (string * string);
  body : option json   (* [None]: the body is not JSON, [response.json()] raises *)
}.

Inductive http_outcome : Type :=
| Response (r : response)
| TransportFailure.   (* httpx.RequestError or httpx.TimeoutException *)

(** Header names compare case-insensitively; the values of a repeated
    header are joined with a comma and a space. *)
Fixpoint header_values (hs : list (string * string)) (name : string) : list string :=
  match hs with
  | [] => []
  | (k, v) :: hs' =>
      if String.eqb (str_upper k) (str_upper name)
      then v :: header_values hs' name
      else header_values hs' name
  end.

Definition header_get (hs : list (string * string)) (name : string) : option string :=
  match header_values hs name with
  | [] => None
  | vs => Some (String.concat ", " vs)
  end.

(** [response.raise_for_status()] raises unless the status is a 2xx one. *)
Definition is_success (status : Z) : bool :=
  ((200 <=? status) && (status <=? 299))%Z.

(** ** The instance and its environment *)

(** A chat id is an [int] or a [str]. *)
Definition chat_id : Type := Z + string.

(** The rate-limiting fields of an instance ([TelegramClient] and
    [TelegramCore] declare the same ones; [max_retries] is the client's). *)
Record client : Type := mkClient {
  min_request_delay : Q;
  max_retries : Z;
  _last_request_time : option Q;
  _last_message_time_per_chat : gmap chat_id Q;
  _last_edit_time : option Q;
  _edit_count_last_hour : Z;
  _edit_count_reset_time : option Q
}.

Definition set_last_request_time (v : option Q) (c : client) : client :=
  mkClient (min_request_delay c) (max_retries c) v (_last_message_time_per_chat c)
           (_last_edit_time c) (_edit_count_last_hour c) (_edit_count_reset_time c).

Definition set_last_message_time_per_chat (v : gmap chat_id Q) (c : client) : client :=
  mkClient (min_request_delay c) (max_retries c) (_last_request_time c) v
           (_last_edit_time c) (_edit_count_last_hour c) (_edit_count_reset_time c).

Definition set_last_edit_time (v : option Q) (c : client) : client :=
  mkClient (min_request_delay c) (max_retries c) (_last_request_time c)
           (_last_message_time_per_chat c) v (_edit_count_last_hour c)
           (_edit_count_reset_time c).

Definition set_edit_count_last_hour (v : Z) (c : client) : client :=
  mkClient (min_request_delay c) (max_retries c) (_last_request_time c)
           (_last_message_time_per_chat c) (_last_edit_time c) v
           (_edit_count_reset_time c).

Definition set_edit_count_reset_time (v : option Q) (c : client) : client :=
  mkClient (min_request_delay c) (max_retries c) (_last_request_time c)
           (_last_message_time_per_chat c) (_last_edit_time c)
           (_edit_count_last_hour c) v.

(** What a provider call of the core ([await self.client.<op>(...)])
    yields: a value, Telethon's flood-wait error, or another exception. *)
Record provider_value : Type := mkValue {
  value_truthy : bool;   (* truth value of the returned object *)
  value_media : bool     (* truth value of its [media] attribute *)
}.

Inductive provider_outcome : Type :=
| Returned (v : provider_value)
| FloodWait (seconds : Z)
| Failure.

(** Observable actions, latest first in the trace.  [EvGate] marks the
    point where [_wait_for_rate_limit] records the last-request time. *)
Inductive event : Type :=
| EvSleep (seconds : Q)
| EvHttp
| EvGate
| EvProvider.

(** The instance together with what surrounds it: the clock, and the
    successive answers of the clock, of [random.random()], of the HTTP
    client and of the provider.  [lag k] is the time that passes before the
    [k]-th reading of the clock in addition to the time slept. *)
Record world : Type := mkWorld {
  self : client;
  clock : Q;
  lag : nat -> Q;
  n_time : nat;
  rnd : nat -> Q;
  n_rnd : nat;
  http : nat -> http_outcome;
  n_http : nat;
  provider : nat -> provider_outcome;
  n_provider : nat;
  trace : list event
}.

(** ** State and exception monad *)

Definition M (A : Type) : Type := world -> result A * world.

Definition ret {A} (a : A) : M A := fun w => (Ok a, w).

Definition bind {A B} (m : M A) (k : A -> M B) : M B :=
  fun w =>
    match m w with
    | (Ok a, w') => k a w'
    | (Raise e, w') => (Raise e, w')
    end.

Definition raise {A} (e : exn) : M A := fun w => (Raise e, w).

(** [try: m except <exceptions selected by handles>: h]. *)
Definition try_except {A} (m : M A) (handles : exn -> bool) (h : exn -> M A) : M A :=
  fun w =>
    match m w with
    | (Ok a, w') => (Ok a, w')
    | (Raise e, w') => if handles e then h e w' else (Raise e, w')
    end.

Declare Scope monad_scope.
Delimit Scope monad_scope with monad.
Notation "x <- m ;; k" := (bind m (fun x => k))
  (at level 100, m at next level, right associativity) : monad_scope.
Notation "m ;;; k" := (bind m (fun _ => k))
  (at level 100, right associativity) : monad_scope.
Local Open Scope monad_scope.

Definition get_self : M client := fun w => (Ok (self w), w).

Definition modify_self (f : client -> client) : M unit :=
  fun w => (Ok tt,
            mkWorld (f (self w)) (clock w) (lag w) (n_time w) (rnd w) (n_rnd w)
                    (http w) (n_http w) (provider w) (n_provider w) (trace w)).

Definition emit (e : event) : M unit :=
  fun w => (Ok tt,
            mkWorld (self w) (clock w) (lag w) (n_time w) (rnd w) (n_rnd w)
                    (http w) (n_http w) (provider w) (n_provider w) (e :: trace w)).

(** [time.time()]. *)
Definition time_time : M Q :=
  fun w =>
    let t := clock w + lag w (n_time w) in
    (Ok t,
     mkWorld (self w) t (lag w) (S (n_time w)) (rnd w) (n_rnd w)
             (http w) (n_http w) (provider w) (n_provider w) (trace w)).

Definition advance (d : Q) : M unit :=
  fun w => (Ok tt,
            mkWorld (self w) (clock w + d) (lag w) (n_time w) (rnd w) (n_rnd w)
                    (http w) (n_http w) (provider w) (n_provider w)
                    (EvSleep d :: trace w)).

(** [time.sleep(d)]: a negative length is a [ValueError]. *)
Definition time_sleep (d : Q) : M unit :=
  if Qltb d 0 then raise ValueError else advance d.

(** [await asyncio.sleep(d)]: a delay that is not positive returns at once. *)
Definition asyncio_sleep (d : Q) : M unit :=
  if Qltb 0 d then advance d else emit (EvSleep d).

(** [random.random()], in [0, 1). *)
Definition random_random : M Q :=
  fun w =>
    (Ok (rnd w (n_rnd w)),
     mkWorld (self w) (clock w) (lag w) (n_time w) (rnd w) (S (n_rnd w))
             (http w) (n_http w) (provider w) (n_provider w) (trace w)).

(** [random.uniform(a, b)] is [a + (b - a) * random.random()]. *)
Definition random_uniform (a b : Q) : M Q :=
  u <- random_random ;; ret (a + (b - a) * u).

(** [self._client.request(...)]. *)
Definition client_request : M response :=
  fun w =>
    let w' := mkWorld (self w) (clock w) (lag w) (n_time w) (rnd w) (n_rnd w)
                      (http w) (S (n_http w)) (provider w) (n_provider w)
                      (EvHttp :: trace w) in
    match http w (n_http w) with
    | Response r => (Ok r, w')
    | TransportFailure => (Raise RequestError, w')
    end.

(** ** The HTTP client, [telegram_client.py] *)

Inductive control : Type :=
| Continue
| Return (v : json).

Section Client.

(** [float(s)] on a string: [None] is [ValueError]. *)
Variable float_of_str : string -> option Q.
(** [str(x)] on a decoded JSON value that is not a string. *)
Variable str_other : json -> string.
(** [json.loads(s)]: [None] is [json.JSONDecodeError]. *)
Variable json_loads : string -> option json.

Definition py_str (j : json) : string :=
  match j with
  | JStr s => s
  | _ => str_other j
  end.

(** [float(x)] on a decoded JSON value. *)
Definition py_float (j : json) : result Q :=
  match j with
  | JNum q => Ok q
  | JBool b => Ok (if b then 1 else 0)
  | JStr s =>
      match float_of_str s with
      | Some q => Ok q
      | None => Raise ValueError
      end
  | _ => Raise TypeError
  end.

(** [float(n)] on an integer that rounds to [2^1024] or beyond, in
    absolute value, is an [OverflowError].  A decoded number of that size
    is an integer: a float is below [2^1024]. *)
Definition float_overflows (q : Q) : bool :=
  let bound := inject_Z (2 ^ 1024 - 2 ^ 970) in
  Qle_bool bound q || Qle_bool q (- bound).

(** [isinstance(x, (int, float))] followed by [float(x)], else [1.0]. *)
Definition number_or_one (j : json) : result Q :=
  match j with
  | JNum q => if float_overflows q then Raise OverflowError else Ok q
  | JBool b => Ok (if b then 1 else 0)
  | _ => Ok 1
  end.

Definition _extract_flood_wait_time (error_msg : json) (res : list (string * json))
  : result Q :=
  let wait_time := 1 in
  let parameters := assoc_get res "parameters" (JDict []) in
  let from_parameters :=
    match parameters with
    | JDict p =>
        let seconds :=
          py_or (assoc_get p "seconds" JNull) (assoc_get p "retry_after" JNull) in
        if truthy seconds then py_float seconds else Ok wait_time
    | _ => Ok wait_time
    end in
  match from_parameters with
  | Raise e => Raise e
  | Ok wait_time =>
      let wait_time :=
        match re_search_flood_wait (str_upper (py_str error_msg)) with
        | Some ds => inject_Z (digits_value ds)
        | None => wait_time
        end in
      Ok (py_min wait_time 3600)
  end.

(** The [try] block of [_handle_rate_limit_error]: [ValueError], [KeyError]
    and [TypeError] are swallowed, the [AttributeError] of [.get] on a
    ["parameters"] entry that is not a dict and the [OverflowError] of
    [float] are not. *)
Definition body_retry_after (r : response) : result Q :=
  match body r with
  | None => Ok 1
  | Some (JDict error_data) =>
      match assoc_get error_data "parameters" (JDict []) with
      | JDict p =>
          number_or_one
            (assoc_get error_data "retry_after"
                       (assoc_get p "retry_after" (JNum 1)))
      | _ => Raise AttributeError
      end
  | Some _ => Ok 1
  end.

Definition header_retry_after (r : response) (retry_after : Q) : Q :=
  match header_get (headers r) "Retry-After" with
  | Some v =>
      match float_of_str v with
      | Some q => q
      | None => retry_after
      end
  | None => retry_after
  end.

Definition _handle_rate_limit_error (r : response) (attempt : nat) : M Q :=
  match body_retry_after r with
  | Raise e => raise e
  | Ok retry_after =>
      let retry_after := header_retry_after r retry_after in
      let backoff_time := retry_after * pow2 attempt in
      jitter <- random_uniform 0 (backoff_time * (25 # 100)) ;;
      let total_wait := backoff_time + jitter in
      ret (py_min total_wait 60)
  end.

Definition _wait_for_rate_limit : M unit :=
  current_time <- time_time ;;
  c <- get_self ;;
  match _last_request_time c with
  | Some last =>
      let elapsed := current_time - last in
      if Qltb elapsed (min_request_delay c) then
        let sleep_time := min_request_delay c - elapsed in
        j <- random_uniform 0 (5 # 100) ;;
        time_sleep (sleep_time + j)
      else ret tt
  | None => ret tt
  end ;;;
  t <- time_time ;;
  modify_self (set_last_request_time (Some t)) ;;;
  emit EvGate.

Definition _check_edit_rate_limit : M unit :=
  current_time <- time_time ;;
  c <- get_self ;;
  match _edit_count_reset_time c with
  | Some reset =>
      if Qle_bool reset current_time then
        modify_self (set_edit_count_last_hour 0) ;;;
        modify_self (set_edit_count_reset_time (Some (current_time + 3600)))
      else ret tt
  | None =>
      modify_self (set_edit_count_last_hour 0) ;;;
      modify_self (set_edit_count_reset_time (Some (current_time + 3600)))
  end ;;;
  c <- get_self ;;
  (if (120 <=? _edit_count_last_hour c)%Z then
     match _edit_count_reset_time c with
     | Some reset =>
         let wait_time := reset - current_time in
         if Qltb 0 wait_time then raise (RateLimitError wait_time) else ret tt
     | None => raise TypeError
     end
   else ret tt) ;;;
  match _last_edit_time c with
  | Some last =>
      let elapsed := current_time - last in
      if Qltb elapsed (2 # 10) then
        j <- random_uniform 0 (2 # 100) ;;
        time_sleep ((2 # 10) - elapsed + j)
      else ret tt
  | None => ret tt
  end ;;;
  t <- time_time ;;
  modify_self (set_last_edit_time (Some t)) ;;;
  c <- get_self ;;
  modify_self (set_edit_count_last_hour (_edit_count_last_hour c + 1)).

Definition _check_message_rate_limit (chat : chat_id) : M unit :=
  current_time <- time_time ;;
  c <- get_self ;;
  match _last_message_time_per_chat c !! chat with
  | Some last =>
      let elapsed := current_time - last in
      if Qltb elapsed 1 then
        j <- random_uniform 0 (1 # 10) ;;
        time_sleep (1 - elapsed + j)
      else ret tt
  | None => ret tt
  end ;;;
  t <- time_time ;;
  c <- get_self ;;
  modify_self (set_last_message_time_per_chat
                 (<[chat := t]> (_last_message_time_per_chat c))).

(** The body of the [try] statement of one iteration of the loop of
    [_request]. *)
Definition attempt_body (attempt : nat) : M control :=
  r <- client_request ;;
  c <- get_self ;;
  if (status_code r =? 429)%Z then
    wait_time <- _handle_rate_limit_error r attempt ;;
    if (Z.of_nat attempt <? max_retries c)%Z then
      time_sleep wait_time ;;; ret Continue
    else raise (RateLimitError wait_time)
  else if negb (is_success (status_code r)) then
    raise (HTTPStatusError (status_code r))
  else
    match body r with
    | None => raise ValueError
    | Some (JDict res) =>
        if negb (truthy (assoc_get res "success" JNull)) then
          let error_msg := assoc_get res "error" (JStr "Unknown error") in
          let error_code := assoc_get res "error_code" (JStr "") in
          if contains "FLOOD_WAIT" (str_upper (py_str error_code))
             || contains "FLOOD_WAIT" (str_upper (py_str error_msg)) then
            match _extract_flood_wait_time error_msg res with
            | Raise e => raise e
            | Ok wait_time =>
                if (Z.of_nat attempt <? max_retries c)%Z then
                  j <- random_uniform 0 1 ;;
                  time_sleep (wait_time + j) ;;; ret Continue
                else raise (FloodWaitError wait_time)
            end
          else raise (TelegramClientError error_msg)
        else
          let data := assoc_get res "data" JNull in
          if truthy data then
            match data with
            | JStr s =>
                match json_loads s with
                | Some v => ret (Return v)
                | None => ret (Return data)
                end
            | _ => ret (Return data)
            end
          else ret (Return data)
    | Some _ => raise AttributeError
    end.

(** The [except] clauses for [httpx.HTTPStatusError] (status other than
    429) and for [httpx.RequestError]: remember the exception, back off
    and go on, or re-raise on the last attempt. *)
Definition backoff_or_reraise (attempt : nat) (e : exn) : M unit :=
  c <- get_self ;;
  if (Z.of_nat attempt <? max_retries c)%Z then
    j <- random_uniform 0 1 ;;
    time_sleep (pow2 attempt + j)
  else raise e.

(** The [for attempt in range(self.max_retries + 1)] loop of [_request]
    and the two statements after it; [todo] iterations remain. *)
Fixpoint request_loop (todo attempt : nat) (last_exception : option exn) : M json :=
  match todo with
  | O =>
      match last_exception with
      | Some e => raise e
      | None => raise (TelegramClientError (JStr "Request failed after all retries"))
      end
  | S todo' =>
      fun w =>
        match attempt_body attempt w with
        | (Ok Continue, w') => request_loop todo' (S attempt) last_exception w'
        | (Ok (Return v), w') => (Ok v, w')
        | (Raise (HTTPStatusError s), w') =>
            if (s =? 429)%Z then request_loop todo' (S attempt) last_exception w'
            else
              (backoff_or_reraise attempt (HTTPStatusError s) ;;;
               request_loop todo' (S attempt) (Some (HTTPStatusError s))) w'
        | (Raise RequestError, w') =>
            (backoff_or_reraise attempt RequestError ;;;
             request_loop todo' (S attempt) (Some RequestError)) w'
        | (Raise e, w') => (Raise e, w')
        end
  end.

Definition _request (check_message_rate_limit : bool) (chat : option chat_id)
           (is_edit : bool) : M json :=
  (if is_edit then _check_edit_rate_limit else ret tt) ;;;
  match check_message_rate_limit, chat with
  | true, Some ch => _check_message_rate_limit ch
  | _, _ => ret tt
  end ;;;
  _wait_for_rate_limit ;;;
  c <- get_self ;;
  request_loop (Z.to_nat (max_retries c + 1)) 0 None.

End Client.

(** ** The core, [telegram_core.py] *)

Module Core.

(** [await self.client.<operation>(...)]. *)
Definition provider_call : M provider_value :=
  fun w =>
    let w' := mkWorld (self w) (clock w) (lag w) (n_time w) (rnd w) (n_rnd w)
                      (http w) (n_http w) (provider w) (S (n_provider w))
                      (EvProvider :: trace w) in
    match provider w (n_provider w) with
    | Returned v => (Ok v, w')
    | FloodWait s => (Raise (TelethonFloodWaitError s), w')
    | Failure => (Raise OtherException, w')
    end.

Definition _wait_for_rate_limit : M unit :=
  current_time <- time_time ;;
  c <- get_self ;;
  match _last_request_time c with
  | Some last =>
      let elapsed := current_time - last in
      if Qltb elapsed (min_request_delay c) then
        let sleep_time := min_request_delay c - elapsed in
        j <- random_uniform 0 (5 # 100) ;;
        asyncio_sleep (sleep_time + j)
      else ret tt
  | None => ret tt
  end ;;;
  t <- time_time ;;
  modify_self (set_last_request_time (Some t)) ;;;
  emit EvGate.

(** The reset of the hourly counter, written twice in the source. *)
Definition reset_edit_window (current_time : Q) : M unit :=
  modify_self (set_edit_count_last_hour 0) ;;;
  modify_self (set_edit_count_reset_time (Some (current_time + 3600))).

Definition _check_edit_rate_limit : M unit :=
  current_time <- time_time ;;
  c <- get_self ;;
  match _edit_count_reset_time c with
  | Some reset =>
      if Qle_bool reset current_time then reset_edit_window current_time
      else ret tt
  | None => reset_edit_window current_time
  end ;;;
  c <- get_self ;;
  current_time <-
    (if (120 <=? _edit_count_last_hour c)%Z then
       match _edit_count_reset_time c with
       | Some reset =>
           let wait_time := reset - current_time in
           if Qltb 0 wait_time then
             asyncio_sleep wait_time ;;;
             current_time <- time_time ;;
             (if Qle_bool reset current_time
              then reset_edit_window current_time
              else ret tt) ;;;
             ret current_time
           else ret current_time
       | None => raise TypeError
       end
     else ret current_time) ;;
  c <- get_self ;;
  match _last_edit_time c with
  | Some last =>
      let elapsed := current_time - last in
      if Qltb elapsed (2 # 10) then
        j <- random_uniform 0 (2 # 100) ;;
        asyncio_sleep ((2 # 10) - elapsed + j)
      else ret tt
  | None => ret tt
  end ;;;
  t <- time_time ;;
  modify_self (set_last_edit_time (Some t)) ;;;
  c <- get_self ;;
  modify_self (set_edit_count_last_hour (_edit_count_last_hour c + 1)).

Definition _check_message_rate_limit (chat : chat_id) : M unit :=
  current_time <- time_time ;;
  c <- get_self ;;
  match _last_message_time_per_chat c !! chat with
  | Some last =>
      let elapsed := current_time - last in
      if Qltb elapsed 1 then
        j <- random_uniform 0 (1 # 10) ;;
        asyncio_sleep (1 - elapsed + j)
      else ret tt
  | None => ret tt
  end ;;;
  t <- time_time ;;
  c <- get_self ;;
  modify_self (set_last_message_time_per_chat
                 (<[chat := t]> (_last_message_time_per_chat c))).

(** *** Validation of ids *)

Definition in_int64 (n : Z) : bool :=
  ((- 2 ^ 63 <=? n) && (n <=? 2 ^ 63 - 1))%Z.

(** The class [[a-zA-Z0-9_]]. *)
Definition is_word (c : ascii) : bool :=
  let n := nat_of_ascii c in
  is_lower c || ((65 <=? n)%nat && (n <=? 90)%nat) || is_digit c
  || Ascii.eqb c "_"%char.

(** [re.match(r"^@?[a-zA-Z0-9_]{5,}$", s)]; [$] also matches before a
    final newline. *)
Definition is_username (s : string) : bool :=
  let s' := match s with
            | String "@"%char t => t
            | _ => s
            end in
  let '(name, rest) := span is_word s' in
  (5 <=? String.length name)%nat
  && (String.eqb rest "" || String.eqb rest (String "010"%char "")).

Section Operations.

(** [int(s)] on a string: [None] is [ValueError]. *)
Variable int_of_str : string -> option Z.

(** [validate_id_value]: the validated value, [None] for an error
    message. *)
Definition validate_id_value (value : chat_id) : option chat_id :=
  match value with
  | inl n => if in_int64 n then Some (inl n) else None
  | inr s =>
      match int_of_str s with
      | Some n => if in_int64 n then Some (inl n) else None
      | None => if is_username s then Some (inr s) else None
      end
  end.

(** What an operation returns: a string in the source. *)
Inductive reply : Type :=
| InvalidId          (* the error message of [validate_ids] *)
| Success            (* the message of a completed operation *)
| ErrorText          (* the text of [log_and_format_error] *)
| NotFound | NoMedia | DownloadFailed.

(** [min(float(e.seconds), 3600.0)]. *)
Definition flood_seconds (seconds : Z) : Q := py_min (inject_Z seconds) 3600.

(** The two provider calls of an operation on a chat: resolve the
    entity, then act on it. *)
Definition resolve_and_act : M reply :=
  provider_call ;;; provider_call ;;; ret Success.

(** The body shared by [send_message] and [edit_message] after their
    gates: one try, one sleep and one more try on a flood wait. *)
Definition act_with_flood_retry : M reply :=
  try_except resolve_and_act (fun _ => true)
    (fun e =>
       match e with
       | TelethonFloodWaitError s =>
           j <- random_uniform 0 1 ;;
           asyncio_sleep (flood_seconds s + j) ;;;
           try_except resolve_and_act (fun _ => true) (fun _ => ret ErrorText)
       | _ => ret ErrorText
       end).

Definition send_message (chat : chat_id) : M reply :=
  match validate_id_value chat with
  | None => ret InvalidId
  | Some chat =>
      _check_message_rate_limit chat ;;;
      _wait_for_rate_limit ;;;
      act_with_flood_retry
  end.

Definition edit_message (chat : chat_id) : M reply :=
  match validate_id_value chat with
  | None => ret InvalidId
  | Some chat =>
      _check_edit_rate_limit ;;;
      _wait_for_rate_limit ;;;
      act_with_flood_retry
  end.

(** A provider call of [download_media] or [get_messages] with its own
    handler: on a flood wait of positive length sleep and call once
    more, else re-raise. *)
Definition call_with_flood_retry : M provider_value :=
  try_except provider_call
    (fun e => match e with TelethonFloodWaitError _ => true | _ => false end)
    (fun e =>
       match e with
       | TelethonFloodWaitError s =>
           let wait_time := flood_seconds s in
           if Qltb 0 wait_time then
             j <- random_uniform 0 1 ;;
             asyncio_sleep (wait_time + j) ;;;
             provider_call
           else raise e
       | _ => raise e
       end).

(** [download_media]: both calls of [_wait_for_rate_limit] are commented
    out in the source. *)
Definition download_media (chat : chat_id) : M reply :=
  match validate_id_value chat with
  | None => ret InvalidId
  | Some chat =>
      try_except
        (call_with_flood_retry ;;;
         message <- call_with_flood_retry ;;
         if negb (value_truthy message) then ret NotFound
         else if negb (value_media message) then ret NoMedia
         else
           downloaded_path <- provider_call ;;
           if value_truthy downloaded_path then ret Success
           else ret DownloadFailed)
        (fun _ => true)
        (fun _ => ret ErrorText)
  end.

End Operations.

End Core.

(** ** Concurrent acquirers of the global gate of the core *)

(** The coroutines of the core run on one event loop: a coroutine runs
    without interruption up to an [await] that suspends it.  In
    [Core._wait_for_rate_limit] the only such point is
    [await asyncio.sleep(sleep_time)], which lies between the reading of
    [_last_request_time] and its writing.  A task is therefore one atomic
    step when it does not sleep and two atomic steps when it does. *)
Module Sched.

Inductive pc : Type :=
| Idle                      (* not started *)
| Sleeping (wake : Q)       (* suspended in [asyncio.sleep] until [wake] *)
| Finished (at_time : Q).   (* returned, having recorded [at_time] *)

Record state : Type := mkState {
  now : Q;                  (* [time.time()] *)
  delay : Q;                (* [self.min_request_delay] *)
  last : option Q;          (* [self._last_request_time] *)
  tasks : list pc;
  acquired : list Q         (* the times recorded, latest first *)
}.

Inductive action : Type :=
| Begin (i : nat) (jitter run_time : Q)
    (* task [i] runs up to its first suspension, or to its end, in
       [run_time] seconds *)
| Resume (i : nat)               (* task [i] wakes up and runs to its end *)
| Tick (dt : Q).                 (* time passes *)

Definition tick (dt : Q) (s : state) : state :=
  mkState (now s + dt) (delay s) (last s) (tasks s) (acquired s).

(** The end of the coroutine: [self._last_request_time = time.time()]. *)
Definition finish (i : nat) (s : state) : state :=
  mkState (now s) (delay s) (Some (now s))
          (<[i := Finished (now s)]> (tasks s)) (now s :: acquired s).

Definition suspend (i : nat) (wake : Q) (s : state) : state :=
  mkState (now s) (delay s) (last s) (<[i := Sleeping wake]> (tasks s))
          (acquired s).

Definition step (a : action) (s : state) : option state :=
  match a with
  | Begin i jitter run_time =>
      match tasks s !! i with
      | Some Idle =>
          if Qle_bool 0 jitter && Qle_bool jitter (5 # 100) && Qle_bool 0 run_time
          then
            match last s with
            | Some l =>
                let elapsed := now s - l in
                if Qltb elapsed (delay s)
                then
                  let sleep_time := delay s - elapsed + jitter in
                  Some (suspend i (now s + run_time + sleep_time) (tick run_time s))
                else Some (finish i (tick run_time s))
            | None => Some (finish i (tick run_time s))
            end
          else None
      | _ => None
      end
  | Resume i =>
      match tasks s !! i with
      | Some (Sleeping wake) =>
          if Qle_bool wake (now s) then Some (finish i s) else None
      | _ => None
      end
  | Tick dt => if Qle_bool 0 dt then Some (tick dt s) else None
  end.

Fixpoint run (acts : list action) (s : state) : option state :=
  match acts with
  | [] => Some s
  | a :: acts' =>
      match step a s with
      | Some s' => run acts' s'
      | None => None
      end
  end.




(** [n] tasks that have not started, on an instance whose last request
    was recorded at [l]. *)
Definition initial (d t : Q) (l : option Q) (n : nat) : state :=
  mkState t d l (repeat Idle n) match l with Some x => [x] | None => [] end.



End Sched.

(** ** A decimal fragment of [float] on strings *)

(** An optional sign, digits, and an optional fraction: on these strings
    [float] returns the number they denote.  It is used to evaluate the
    client at concrete responses; the properties below hold for any
    [float_of_str]. *)
Definition decimal_unsigned (s : string) : option Q :=
  let '(ip, rest) := span is_digit s in
  match rest with
  | EmptyString =>
      match ip with
      | EmptyString => None
      | _ => Some (inject_Z (digits_value ip))
      end
  | String "."%char fp =>
      let '(fd, rest') := span is_digit fp in
      match rest', (ip ++ fd)%string with
      | EmptyString, String _ _ =>
          Some (digits_value (ip ++ fd) # Z.to_pos (10 ^ Z.of_nat (String.length fd)))
      | _, _ => None
      end
  | _ => None
  end.

Definition decimal_float (s : string) : option Q :=
  match s with
  | String "-"%char t => option_map Qopp (decimal_unsigned t)
  | String "+"%char t => decimal_unsigned t
  | _ => decimal_unsigned s
  end.

(** ** The statements of the specification, as definitions *)

Module Claimed.




(** The structured body field of a throttle response, [1.0] when it is
    absent or not a number. *)
Definition body_field (r : response) : Q :=
  match body r with
  | Some (JDict d) =>
      let v :=
        if assoc_mem d "retry_after" then assoc_get d "retry_after" JNull
        else
          match assoc_get d "parameters" JNull with
          | JDict p => assoc_get p "retry_after" JNull
          | _ => JNull
          end in
      match v with
      | JNum q => q
      | JBool b => if b then 1 else 0
      | _ => 1
      end
  | _ => 1
  end.

(** The header overrides the body field when it is present and parses. *)
Definition retry_after (float_of_str : string -> option Q) (r : response) : Q :=
  match header_get (headers r) "Retry-After" with
  | Some v =>
      match float_of_str v with
      | Some q => q
      | None => body_field r
      end
  | None => body_field r
  end.

End Claimed.


(** The ['parameters'] entry of a throttle body is a dict when there is
    one: [.get] on it does not raise. *)
Definition parameters_is_dict (r : response) : bool :=
  match body r with
  | Some (JDict d) =>
      match assoc_get d "parameters" (JDict []) with
      | JDict _ => true
      | _ => false
      end
  | _ => true
  end.

(** Number of HTTP calls, of sleeps, of acquisitions of the global gate
    and of provider calls in a trace. *)
Definition count_http (tr : list event) : nat :=
  List.length (List.filter (fun e => match e with EvHttp => true | _ => false end) tr).
Definition count_sleep (tr : list event) : nat :=
  List.length (List.filter (fun e => match e with EvSleep _ => true | _ => false end) tr).
Definition count_gate (tr : list event) : nat :=
  List.length (List.filter (fun e => match e with EvGate => true | _ => false end) tr).
Definition count_provider (tr : list event) : nat :=
  List.length (List.filter (fun e => match e with EvProvider => true | _ => false end) tr).

(** ** Outcomes of an attempt *)

Section Outcomes.

Variable float_of_str : string -> option Q.
Variable str_other : json -> string.

(** The API result of a response that passes [raise_for_status] and
    decodes to a dict whose ['success'] entry is falsy. *)
Definition failed_result (r : response) : option (list (string * json)) :=
  if (status_code r =? 429)%Z then None
  else if negb (is_success (status_code r)) then None
  else
    match body r with
    | Some (JDict res) =>
        if negb (truthy (assoc_get res "success" JNull)) then Some res else None
    | _ => None
    end.

(** The test of the client for a flood-wait error. *)
Definition mentions_flood_wait (res : list (string * json)) : bool :=
  contains "FLOOD_WAIT"
           (str_upper (py_str str_other (assoc_get res "error_code" (JStr ""))))
  || contains "FLOOD_WAIT"
              (str_upper (py_str str_other (assoc_get res "error" (JStr "Unknown error")))).

Definition error_of (res : list (string * json)) : json :=
  assoc_get res "error" (JStr "Unknown error").

(** A throttle (429) outcome. *)
Definition is_throttle (o : http_outcome) : bool :=
  match o with
  | Response r => (status_code r =? 429)%Z
  | TransportFailure => false
  end.

(** A flood-wait outcome. *)
Definition is_flood_wait (o : http_outcome) : bool :=
  match o with
  | Response r =>
      match failed_result r with
      | Some res => mentions_flood_wait res
      | None => false
      end
  | TransportFailure => false
  end.

(** A validation or domain error: a failed API result that is not a
    flood wait. *)
Definition is_domain_error (o : http_outcome) : bool :=
  match o with
  | Response r =>
      match failed_result r with
      | Some res => negb (mentions_flood_wait res)
      | None => false
      end
  | TransportFailure => false
  end.

(** A successful API result. *)
Definition is_api_success (o : http_outcome) : bool :=
  match o with
  | Response r =>
      negb (status_code r =? 429)%Z && is_success (status_code r)
      && match body r with
         | Some (JDict res) => truthy (assoc_get res "success" JNull)
         | _ => false
         end
  | TransportFailure => false
  end.

(** A throttle or flood-wait outcome whose wait the client can compute
    and sleep: the ['parameters'] entry of a throttle body is a dict and
    the base is not negative; the structured value of a flood wait converts
    with [float] and the wait is not negative. *)
Definition retryable (o : http_outcome) : bool :=
  match o with
  | Response r =>
      if (status_code r =? 429)%Z then
        match body_retry_after r with
        | Ok b => Qle_bool 0 (header_retry_after float_of_str r b)
        | Raise _ => false
        end
      else
        match failed_result r with
        | Some res =>
            mentions_flood_wait res
            && match _extract_flood_wait_time float_of_str str_other (error_of res) res with
               | Ok q => Qle_bool 0 q
               | Raise _ => false
               end
        | None => false
        end
  | TransportFailure => false
  end.

(** The exhaustion error for outcome [o] on attempt [a], computed in a
    world whose next random number is the one of [w_last]. *)
Definition exhaustion_error (o : http_outcome) (a : nat) (w_last : world) : option exn :=
  match o with
  | Response r =>
      if (status_code r =? 429)%Z then
        match fst (_handle_rate_limit_error float_of_str r a w_last) with
        | Ok q => Some (RateLimitError q)
        | Raise _ => None
        end
      else
        match failed_result r with
        | Some res =>
            match _extract_flood_wait_time float_of_str str_other (error_of res) res with
            | Ok q => Some (FloodWaitError q)
            | Raise _ => None
            end
        | None => None
        end
  | TransportFailure => None
  end.

End Outcomes.

(** The world after a retried attempt: one call, one sleep of [d]
    seconds, one random number consumed. *)
Definition after_retry (d : Q) (w : world) : world :=
  mkWorld (self w) (clock w + d) (lag w) (n_time w) (rnd w) (S (n_rnd w))
          (http w) (S (n_http w)) (provider w) (n_provider w)
          (EvSleep d :: EvHttp :: trace w).

(** ** Predicates on runs *)

(** Every character of [s] satisfies [p]. *)
Fixpoint all_chars (p : ascii -> bool) (s : string) : bool :=
  match s with
  | EmptyString => true
  | String c s' => p c && all_chars p s'
  end.


Definition option_list {A} (o : option A) : list A :=
  match o with
  | Some a => [a]
  | None => []
  end.

(** [n] acquisitions of a gate one after the other; the result is the
    list of the times recorded in [_last_request_time]. *)
Fixpoint acquire_times (gate : M unit) (n : nat) : M (list Q) :=
  match n with
  | O => ret []
  | S n' =>
      gate ;;;
      c <- get_self ;;
      rest <- acquire_times gate n' ;;
      ret (option_list (_last_request_time c) ++ rest)%list
  end.

(** What one acquisition of the global gate does: it records a time [t2]
    at least [min_request_delay] after the time [t1] recorded before; when
    it sleeps, it sleeps the missing time plus a jitter that is not
    negative. *)
Definition gate_step (gate : M unit) (w : world) : Prop :=
  exists w' t2,
    gate w = (Ok tt, w')
    /\ _last_request_time (self w') = Some t2
    /\ min_request_delay (self w') = min_request_delay (self w)
    /\ lag w' = lag w /\ rnd w' = rnd w
    /\ match _last_request_time (self w) with
       | Some t1 => min_request_delay (self w) <= t2 - t1
       | None => True
       end
    /\ (trace w' = EvGate :: trace w
        \/ exists t1 s,
             _last_request_time (self w) = Some t1
             /\ trace w' = EvGate :: EvSleep s :: trace w
             /\ min_request_delay (self w) - (clock w + lag w (n_time w) - t1) <= s).

(** The gate run for the chats of [cs] in turn; the result lists each
    chat with the time recorded for it. *)
Fixpoint send_times (gate : chat_id -> M unit) (cs : list chat_id)
  : M (list (chat_id * Q)) :=
  match cs with
  | [] => ret []
  | c :: cs' =>
      gate c ;;;
      s <- get_self ;;
      rest <- send_times gate cs' ;;
      ret (match _last_message_time_per_chat s !! c with
           | Some t => (c, t) :: rest
           | None => rest
           end)
  end.





(** The window of the instance is [reset] and its counter [count] after a
    call of [gate] that returns. *)
Definition window_after (gate : M unit) (w : world) (reset : Q) (count : Z) : Prop :=
  exists w',
    gate w = (Ok tt, w')
    /\ _edit_count_reset_time (self w') = Some reset
    /\ _edit_count_last_hour (self w') = count.

(** The core sleeps for [wait] seconds first, and the window it then opens
    ends 3600 seconds after a time [t] that is not before [reset]. *)
Definition blocks_until_reset (gate : M unit) (w : world) (reset wait : Q) : Prop :=
  exists w' t new,
    gate w = (Ok tt, w')
    /\ trace w' = (new ++ EvSleep wait :: trace w)%list
    /\ reset <= t
    /\ _edit_count_reset_time (self w') = Some (t + 3600)
    /\ _edit_count_last_hour (self w') = 1%Z.

(** [grows base g p tr]: the trace [tr] is [base] followed by [g]
    acquisitions of the global gate, [p] provider calls and any number of
    sleeps, in any order. *)
Inductive grows (base : list event) : nat -> nat -> list event -> Prop :=
| grows_refl : grows base 0 0 base
| grows_sleep d g p tr : grows base g p tr -> grows base g p (EvSleep d :: tr)
| grows_gate g p tr : grows base g p tr -> grows base (S g) p (EvGate :: tr)
| grows_provider g p tr : grows base g p tr -> grows base g (S p) (EvProvider :: tr).



(** The statement of the specification on the wait of a throttle
    response: computed from the base of the claim, with the jitter of the
    random number, and within [[0, 60]]. *)
Definition throttle_wait_as_claimed (float_of_str : string -> option Q)
           (r : response) (attempt : nat) (w : world) : Prop :=
  exists total w',
    _handle_rate_limit_error float_of_str r attempt w = (Ok total, w')
    /\ (let backoff := Claimed.retry_after float_of_str r * pow2 attempt in
        total == Qmin (backoff + rnd w (n_rnd w) * ((25 # 100) * backoff)) 60)
    /\ 0 <= total <= 60.


(** ** The request methods of the client *)

Module Requests.

Section Methods.

Variable float_of_str : string -> option Q.
Variable str_other : json -> string.
Variable json_loads : string -> option json.

Definition _get : M json :=
  _request float_of_str str_other json_loads false None false.

Definition _post (check_message_rate_limit : bool) (chat : option chat_id) : M json :=
  _request float_of_str str_other json_loads check_message_rate_limit chat false.

Definition _put (is_edit : bool) : M json :=
  _request float_of_str str_other json_loads false None is_edit.

Definition _delete : M json :=
  _request float_of_str str_other json_loads false None false.

(** A call of [f] with [**data] and arguments given by name: a key of
    [data] that is also given by name is a [TypeError] (multiple values
    for a keyword argument), raised before [f] runs. *)
Definition call_with_kwargs {A} (data : list (string * json)) (named : list string)
           (f : M A) : M A :=
  if existsb (assoc_mem data) named then raise TypeError else f.

Definition chat_json (chat : chat_id) : json :=
  match chat with
  | inl n => JNum (inject_Z n)
  | inr s => JStr s
  end.

(** [send_message] builds [data] with the key ["chat_id"] and passes it
    as [**data] together with [chat_id=chat_id]. *)
Definition send_message (chat : chat_id) (message reply_to parse_mode : json)
  : M json :=
  let data := [("chat_id", chat_json chat); ("message", message)] in
  let data := if truthy reply_to then (data ++ [("reply_to", reply_to)])%list else data in
  let data := if truthy parse_mode then (data ++ [("parse_mode", parse_mode)])%list
              else data in
  call_with_kwargs data ["check_message_rate_limit"; "chat_id"]
                   (_post true (Some chat)).

Definition edit_message : M json := _put true.

Definition delete_message : M json := _delete.

(** The limit is applied to the chat the message goes to. *)
Definition forward_message (from_chat to_chat : chat_id) : M json :=
  _post true (Some to_chat).

End Methods.

End Requests.

(** ** Failures that the client retries with a plain backoff *)

(** A transport failure, or a response with an error status other than
    429. *)
Definition is_transient (o : http_outcome) : bool :=
  match o with
  | Response r => negb (status_code r =? 429)%Z && negb (is_success (status_code r))
  | TransportFailure => true
  end.

(** The exception of such an outcome. *)
Definition transient_error (o : http_outcome) : exn :=
  match o with
  | Response r => HTTPStatusError (status_code r)
  | TransportFailure => RequestError
  end.

(** [tr] is [base] followed by [g] acquisitions of the global gate, [h]
    HTTP calls and [s] sleeps, in any order. *)
Inductive extends (base : list event) : nat -> nat -> nat -> list event -> Prop :=
| extends_refl : extends base 0 0 0 base
| extends_gate g h s tr : extends base g h s tr -> extends base (S g) h s (EvGate :: tr)
| extends_http g h s tr : extends base g h s tr -> extends base g (S h) s (EvHttp :: tr)
| extends_sleep d g h s tr :
    extends base g h s tr -> extends base g h (S s) (EvSleep d :: tr).

(** The counter of the edit quota is between 0 and 120. *)
Definition quota_within (c : client) : Prop :=
  (0 <= _edit_count_last_hour c <= 120)%Z.


(** ** Effects of the parts of [_request] *)

(** What one attempt does to the world, whatever the answer. *)
Definition attempt_effect (a : nat) (w : world) (r : result control) (w' : world) : Prop :=
  self w' = self w /\ lag w' = lag w /\ rnd w' = rnd w /\ http w' = http w
  /\ n_http w' = S (n_http w)
  /\ exists s, extends (trace w) 0 1 s (trace w')
               /\ (s <= 1)%nat
               /\ (s = 1%nat -> (Z.of_nat a < max_retries (self w))%Z /\ r = Ok Continue).

(** What the backoff of an [except] clause does to the world. *)
Definition backoff_effect (a : nat) (w : world) (r : result unit) (w' : world) : Prop :=
  self w' = self w /\ lag w' = lag w /\ rnd w' = rnd w /\ http w' = http w
  /\ n_http w' = n_http w
  /\ exists s, extends (trace w) 0 0 s (trace w')
               /\ (s <= 1)%nat
               /\ (s = 1%nat -> (Z.of_nat a < max_retries (self w))%Z)
               /\ (r = Ok tt -> s = 1%nat).

(** What the loop does to the world: at most [todo] calls, a sleep only
    after a call and only while attempts remain, the instance untouched. *)
Definition loop_effect (todo a : nat) (w : world) (w' : world) : Prop :=
  self w' = self w
  /\ exists h s,
      extends (trace w) 0 h s (trace w')
      /\ (h <= todo)%nat /\ (s <= h)%nat
      /\ (Z.of_nat s <= Z.max 0 (max_retries (self w) - Z.of_nat a))%Z
      /\ n_http w' = (n_http w + h)%nat.

(** What a gate of the client does to the trace, whatever happens. *)
Definition gate_effect (g_max : nat) (w : world) (r : result unit) (w' : world) : Prop :=
  max_retries (self w') = max_retries (self w)
  /\ http w' = http w /\ n_http w' = n_http w
  /\ exists g s, extends (trace w) g 0 s (trace w')
                 /\ (g <= g_max)%nat /\ (r = Ok tt -> g = g_max).

(** The gates in front of the loop, taken together. *)
Definition gates (check_message_rate_limit : bool) (chat : option chat_id)
           (is_edit : bool) : M unit :=
  (if is_edit then _check_edit_rate_limit else ret tt) ;;;
  match check_message_rate_limit, chat with
  | true, Some ch => _check_message_rate_limit ch
  | _, _ => ret tt
  end ;;;
  _wait_for_rate_limit.

(** ** More operations of the core *)

Module CoreOps.

(** The id parameter of [validate_ids]: [None], one id, or a list. *)
Inductive id_param : Type :=
| NoId
| OneId (v : chat_id)
| IdList (l : list chat_id).

(** What [get_messages] returns: a string in the source. *)
Inductive page_reply : Type :=
| PageInvalidId      (* the error message of [validate_ids] *)
| PageEmpty          (* "No messages found for this page." *)
| PageLines          (* the lines of the messages *)
| PageError.         (* the text of [log_and_format_error] *)

Section Operations.

Variable int_of_str : string -> option Z.

(** The loop of [validate_ids] over a list: the items validated so far
    are in [validated_list]; the first item that fails ends the loop with
    its error, which names the item. *)
Fixpoint validate_items (items validated_list : list chat_id)
  : list chat_id + chat_id :=
  match items with
  | [] => inl validated_list
  | item :: rest =>
      match Core.validate_id_value int_of_str item with
      | None => inr item
      | Some validated_item =>
          validate_items rest (validated_list ++ [validated_item])%list
      end
  end.

(** [validate_ids]: the validated parameter, or the item that the error
    message names. *)
Definition validate_ids (param_value : id_param) : id_param + chat_id :=
  match param_value with
  | NoId => inl NoId
  | IdList l =>
      match validate_items l [] with
      | inl validated_list => inl (IdList validated_list)
      | inr item => inr item
      end
  | OneId v =>
      match Core.validate_id_value int_of_str v with
      | Some validated => inl (OneId validated)
      | None => inr v
      end
  end.

(** The three provider calls of [forward_message]: resolve both chats,
    then forward. *)
Definition resolve_both_and_forward : M Core.reply :=
  Core.provider_call ;;; Core.provider_call ;;; Core.provider_call ;;;
  ret Core.Success.

Definition forward_with_flood_retry : M Core.reply :=
  try_except resolve_both_and_forward (fun _ => true)
    (fun e =>
       match e with
       | TelethonFloodWaitError s =>
           j <- random_uniform 0 1 ;;
           asyncio_sleep (Core.flood_seconds s + j) ;;;
           try_except resolve_both_and_forward (fun _ => true)
                      (fun _ => ret Core.ErrorText)
       | _ => ret Core.ErrorText
       end).

Definition forward_message (from_chat to_chat : chat_id) : M Core.reply :=
  match Core.validate_id_value int_of_str from_chat with
  | None => ret Core.InvalidId
  | Some _ =>
      match Core.validate_id_value int_of_str to_chat with
      | None => ret Core.InvalidId
      | Some to_chat =>
          Core._check_message_rate_limit to_chat ;;;
          Core._wait_for_rate_limit ;;;
          forward_with_flood_retry
      end
  end.

(** The body of the [try] of [get_messages]: the global gate before each
    of the two fetches.  The formatting of the lines is left out. *)
Definition fetch_page : M page_reply :=
  Core._wait_for_rate_limit ;;;
  Core.call_with_flood_retry ;;;
  Core._wait_for_rate_limit ;;;
  messages <- Core.call_with_flood_retry ;;
  if negb (value_truthy messages) then ret PageEmpty else ret PageLines.

Definition get_messages (chat : chat_id) : M page_reply :=
  match Core.validate_id_value int_of_str chat with
  | None => ret PageInvalidId
  | Some _ => try_except fetch_page (fun _ => true) (fun _ => ret PageError)
  end.

(** [delete_message]: no gate, and no handler for a flood wait. *)
Definition delete_message (chat : chat_id) : M Core.reply :=
  match Core.validate_id_value int_of_str chat with
  | None => ret Core.InvalidId
  | Some _ =>
      try_except Core.resolve_and_act (fun _ => true) (fun _ => ret Core.ErrorText)
  end.

(** The loop of [create_group] over the validated users: one
    [get_entity] each. *)
Fixpoint resolve_users (users : list chat_id) : M unit :=
  match users with
  | [] => ret tt
  | _ :: rest => Core.provider_call ;;; resolve_users rest
  end.

(** [result.chats[0].id] on the result of [CreateChatRequest]: [None]
    when the evaluation raises, as with a result without chats. *)
Variable first_chat_id : provider_value -> option Z.

(** The [IndexError] of [result.chats[0]] stands for whatever the
    evaluation raises; the [except] clause takes every exception. *)
Definition create_group (users : list chat_id) : M Core.reply :=
  match validate_ids (IdList users) with
  | inl (IdList users) =>
      try_except
        (resolve_users users ;;;
         result <- Core.provider_call ;;
         match first_chat_id result with
         | Some _ => ret Core.Success
         | None => raise IndexError
         end)
        (fun _ => true)
        (fun _ => ret Core.ErrorText)
  | _ => ret Core.InvalidId
  end.

(** The error message of [validate_id_value], [None] for a valid id.
    [str(n)] on an integer is its decimal numeral. *)
Definition validate_id_error (value : chat_id) (param_name : string)
  : option string :=
  match value with
  | inl n =>
      if Core.in_int64 n then None
      else Some ("Invalid " ++ param_name ++ ": "
                 ++ NilZero.string_of_int (Z.to_int n) ++ ". ID is out of range.")
  | inr s =>
      match int_of_str s with
      | Some n =>
          if Core.in_int64 n then None
          else Some ("Invalid " ++ param_name ++ ": " ++ s ++ ". ID is out of range.")
      | None =>
          if Core.is_username s then None
          else Some ("Invalid " ++ param_name ++ ": '" ++ s
                     ++ "'. Must be integer ID or username.")
      end
  end.

End Operations.

(** What [log_and_format_error] returns when no [user_message] is given,
    as in every call of the core. *)
Definition error_text (error_code : string) : string :=
  "An error occurred (code: " ++ error_code ++ "). Check logs for details.".

End CoreOps.

(** ** The HTTP interface, [api.py] *)

Module Api.

Record ApiResponse : Type := mkApiResponse {
  success : bool;
  data : option string;
  error : option string
}.

(** [make_response]; [result[:50]] is [substring 0 50 result]. *)
Definition make_response (result : string) : ApiResponse :=
  if String.prefix "An error occurred" result
     || contains "Error" (substring 0 50 result)
  then mkApiResponse false None (Some result)
  else mkApiResponse true (Some result) None.

End Api.

(** ** Predicates on the edit quota and on the operations of the core *)

Definition returned (o : provider_outcome) : bool :=
  match o with
  | Returned _ => true
  | _ => false
  end.

(** The call returned a result whose first chat has an id. *)
Definition returned_chat (first_chat_id : provider_value -> option Z)
           (o : provider_outcome) : bool :=
  match o with
  | Returned v =>
      match first_chat_id v with
      | Some _ => true
      | None => false
      end
  | _ => false
  end.

(** Provider calls and sleeps only: the instance is left as it is, no
    gate is passed, there are at most [p] provider calls and [s] sleeps,
    and the time slept is at most 3601 s for each sleep when the random
    numbers are in [0, 1]. *)
Definition calls_and_sleeps (p s : nat) (w w' : world) : Prop :=
  self w' = self w /\ rnd w' = rnd w
  /\ exists new,
      trace w' = (new ++ trace w)%list
      /\ count_gate new = 0%nat
      /\ (count_provider new <= p)%nat
      /\ (count_sleep new <= s)%nat
      /\ clock w <= clock w'
      /\ ((forall k, 0 <= rnd w k <= 1) ->
          clock w' - clock w <= 3601 * inject_Z (Z.of_nat s)).

(** One fetch: the global gate, then one or two provider calls. *)
Definition fetch_gated (base : list event) (tr : list event) : Prop :=
  exists at_gate p,
    grows base 1 0 at_gate /\ grows at_gate 0 p tr /\ (1 <= p <= 2)%nat.

(** [k] provider calls and nothing else: no gate, no sleep, the instance
    and the clock as they were; every call but the last returned. *)
Definition only_calls (k : nat) (w w' : world) : Prop :=
  self w' = self w /\ clock w' = clock w /\ provider w' = provider w
  /\ n_provider w' = (n_provider w + k)%nat
  /\ trace w' = (repeat EvProvider k ++ trace w)%list
  /\ forall i, (S i < k)%nat -> returned (provider w (n_provider w + i)) = true.

(** What a validated id is: an integer of 64 bits, or a user name that
    does not read as an integer. *)
Definition canonical_id (int_of_str : string -> option Z) (v : chat_id) : Prop :=
  match v with
  | inl n => (- 2 ^ 63 <= n <= 2 ^ 63 - 1)%Z
  | inr s => int_of_str s = None /\ Core.is_username s = true
  end.

Definition canonical (int_of_str : string -> option Z) (p : CoreOps.id_param) : Prop :=
  match p with
  | CoreOps.NoId => True
  | CoreOps.OneId v => canonical_id int_of_str v
  | CoreOps.IdList l => Forall (canonical_id int_of_str) l
  end.

(** No capital E in a text. *)
Definition no_capital_e (s : string) : bool :=
  all_chars (fun c => negb (Ascii.eqb c "E"%char)) s.

(** ** Worlds and answers to evaluate the model on *)

(** A world to evaluate the client in: the clock at 0, no lag, every
    random number one half, no answer from the network. *)
Definition client0 : client :=
  mkClient (2 # 10) 3 None ∅ None 0 None.

Definition world0 : world :=
  mkWorld client0 0 (fun _ => 0) 0 (fun _ => 1 # 2) 0
          (fun _ => TransportFailure) 0 (fun _ => Failure) 0 [].

(** A 429 response with the header [Retry-After: 2]. *)
Definition throttled_2 : response :=
  mkResponse 429 [("Retry-After", "2")] None.

Definition world_of (answers : nat -> http_outcome) : world :=
  mkWorld client0 0 (fun _ => 0) 0 (fun _ => 1 # 2) 0 answers 0
          (fun _ => Failure) 0 [].

(** A 429 response whose body has a [null] for ['parameters'], and one
    whose ['retry_after'] is the integer [10^400]. *)
Definition parameters_null : response :=
  mkResponse 429 [] (Some (JDict [("parameters", JNull)])).

Definition huge_retry_after : response :=
  mkResponse 429 [] (Some (JDict [("retry_after", JNum (inject_Z (10 ^ 400)))])).

(** A 429 response with the header [Retry-After: -5], at every attempt. *)
Definition negative_retry_after : response :=
  mkResponse 429 [("Retry-After", "-5")] None.

Definition always_negative : world :=
  world_of (fun _ => Response negative_retry_after).

(** An API result that asks for a flood wait of 45 seconds. *)
Definition flood_45 : response :=
  mkResponse 200 []
    (Some (JDict [("success", JBool false); ("error", JStr "FLOOD_WAIT_45")])).

(** A successful API result. *)
Definition done_response : response :=
  mkResponse 200 [] (Some (JDict [("success", JBool true); ("data", JStr "done")])).

(** A domain error. *)
Definition chat_not_found : response :=
  mkResponse 200 []
    (Some (JDict [("success", JBool false); ("error", JStr "Chat not found")])).

(** Throttle and flood-wait answers in turn. *)
Definition always_limited : world :=
  world_of (fun k => if Nat.even k then Response throttled_2 else Response flood_45).

(** An instance whose last request was recorded at time 0, read at time
    1/10 with a delay of 2/10. *)
Definition recently_used : world :=
  mkWorld (mkClient (2 # 10) 3 (Some 0) ∅ None 0 None) 0
          (fun k => match k with O => 1 # 10 | _ => 0 end) 0
          (fun _ => 1 # 2) 0 (fun _ => TransportFailure) 0 (fun _ => Failure) 0 [].

(** Two chats; the first was written to at time 0 and the clock reads
    3/10 at the first call. *)
Definition chat_a : chat_id := inl 100%Z.
Definition chat_b : chat_id := inr "@channel".

Definition one_chat_known : world :=
  mkWorld (mkClient (2 # 10) 3 None {[chat_a := 0]} None 0 None) 0
          (fun k => match k with O => 3 # 10 | _ => 0 end) 0
          (fun _ => 1 # 2) 0 (fun _ => TransportFailure) 0 (fun _ => Failure) 0 [].

(** An instance that has counted 120 edits in a window that ends at time
    3600, read at time 1800; its last edit was at time 1700. *)
Definition quota_used : world :=
  mkWorld (mkClient (2 # 10) 3 None ∅ (Some 1700) 120 (Some 3600)) 0
          (fun k => match k with O => 1800 | _ => 0 end) 0
          (fun _ => 1 # 2) 0 (fun _ => TransportFailure) 0 (fun _ => Failure) 0 [].

(** A provider that answers every call. *)
Definition served : world :=
  mkWorld client0 0 (fun _ => 0) 0 (fun _ => 1 # 2) 0 (fun _ => TransportFailure) 0
          (fun _ => Returned (mkValue true true)) 0 [].

(** Two tasks enter the gate one tenth of a second after the last
    request, with a delay of two tenths.  Each takes a millisecond to reach
    its sleep and draws a jitter of ten milliseconds; both read the same
    time of the last request, both sleep, and they wake up and record their
    times one millisecond apart. *)
Definition both_sleep : list Sched.action :=
  [Sched.Begin 0 (1 # 100) (1 # 1000); Sched.Begin 1 (1 # 100) (1 # 1000);
   Sched.Tick (109 # 1000); Sched.Resume 0; Sched.Tick (1 # 1000);
   Sched.Resume 1].

(** A network that fails and a server that answers 503, in turn. *)
Definition always_failing : world :=
  world_of (fun k => if Nat.even k then TransportFailure
                     else Response (mkResponse 503 [] None)).

(** An instance created with [max_retries = -1]. *)
Definition no_attempts : world :=
  mkWorld (mkClient (2 # 10) (-1) None ∅ None 0 None) 0 (fun _ => 0) 0
          (fun _ => 1 # 2) 0 (fun _ => Response done_response) 0
          (fun _ => Failure) 0 [].

(** An instance whose last edit was at time 100, the fifth of its
    window, read one tenth of a second later. *)
Definition edited_recently : world :=
  mkWorld (mkClient (2 # 10) 3 None ∅ (Some 100) 5 (Some 3000)) 0
          (fun k => match k with O => 1001 # 10 | _ => 0 end) 0
          (fun _ => 1 # 2) 0 (fun _ => TransportFailure) 0 (fun _ => Failure) 0 [].

(** The instance of [quota_used] with a clock that is set back by ten
    seconds while the core sleeps to the end of the window. *)
Definition clock_set_back : world :=
  mkWorld (mkClient (2 # 10) 3 None ∅ (Some 1700) 120 (Some 3600)) 0
          (fun k => match k with O => 1800 | 1%nat => - (10) | _ => 0 end) 0
          (fun _ => 1 # 2) 0 (fun _ => TransportFailure) 0 (fun _ => Failure) 0 [].

(** Decimal numerals with an optional sign, the strings that occur in
    the examples and that [int] reads.  It is used to evaluate the
    validation at concrete ids; the properties hold for any [int_of_str]. *)
Definition decimal_int (s : string) : option Z :=
  let '(negative, digits) :=
    match s with
    | String "-"%char t => (true, t)
    | String "+"%char t => (false, t)
    | _ => (false, s)
    end in
  match digits with
  | EmptyString => None
  | _ =>
      if all_chars is_digit digits
      then Some (if negative then - digits_value digits else digits_value digits)%Z
      else None
  end.

(** A provider that answers a flood wait of 30 seconds to the first and
    to the third call. *)
Definition flooded : world :=
  mkWorld client0 0 (fun _ => 0) 0 (fun _ => 1 # 2) 0 (fun _ => TransportFailure) 0
          (fun k => if Nat.even k && (k <? 4)%nat then FloodWait 30
                    else Returned (mkValue true true)) 0 [].


(** * Properties *)

(** ** Comparisons on rationals *)

Lemma Qltb_lt (a b : Q) : Qltb a b = true <-> a < b.
Proof.
  unfold Qltb. rewrite negb_true_iff.
  destruct (Qle_bool b a) eqn:E.
  - apply Qle_bool_iff in E. split; [discriminate | intro H; exfalso; lra].
  - split; [intros _ | reflexivity].
    destruct (Qlt_le_dec a b) as [H | H]; [exact H |].
    apply Qle_bool_iff in H. congruence.
Qed.

Lemma Qltb_ge (a b : Q) : Qltb a b = false <-> b <= a.
Proof.
  destruct (Qltb a b) eqn:E.
  - apply Qltb_lt in E. split; [discriminate | intro; exfalso; lra].
  - split; [intros _ | reflexivity].
    destruct (Qlt_le_dec a b) as [H | H]; [| exact H].
    apply Qltb_lt in H. congruence.
Qed.

Lemma py_min_Qmin (a b : Q) : py_min a b == Qmin a b.
Proof.
  unfold py_min. destruct (Qltb b a) eqn:E.
  - apply Qltb_lt in E. rewrite Q.min_r; [reflexivity | lra].
  - apply Qltb_ge in E. rewrite Q.min_l; [reflexivity | lra].
Qed.

Lemma py_min_le_r (a b : Q) : py_min a b <= b.
Proof. rewrite py_min_Qmin. apply Q.le_min_r. Qed.

Lemma py_min_le_l (a b : Q) : py_min a b <= a.
Proof. rewrite py_min_Qmin. apply Q.le_min_l. Qed.

Lemma py_min_glb (a b c : Q) : c <= a -> c <= b -> c <= py_min a b.
Proof. intros. rewrite py_min_Qmin. apply Q.min_glb; assumption. Qed.

Lemma pow2_pos (a : nat) : 0 < pow2 a.
Proof.
  unfold pow2. change 0 with (inject_Z 0). rewrite <- Zlt_Qlt.
  apply Z.pow_pos_nonneg; lia.
Qed.

(** ** The digits captured by the pattern *)






(** ** C1: the wait of a flood-wait error *)

Section FloodWait.

Variable float_of_str : string -> option Q.
Variable str_other : json -> string.


End FloodWait.


(** The examples of the specification: a marker followed by 45, a
    structured field of 10, neither, and a value above the cap. *)
Example flood_wait_marker_45 :
  _extract_flood_wait_time decimal_float (fun _ => "")
    (JStr "A wait of 45 seconds is required (flood_wait_45)") [] = Ok 45.
Proof. vm_compute. reflexivity. Qed.

Example flood_wait_structured_10 :
  _extract_flood_wait_time decimal_float (fun _ => "") (JStr "FLOOD_WAIT")
    [("parameters", JDict [("seconds", JNum 10)])] = Ok 10.
Proof. vm_compute. reflexivity. Qed.

Example flood_wait_default :
  _extract_flood_wait_time decimal_float (fun _ => "") (JStr "FLOOD_WAIT") [] = Ok 1.
Proof. vm_compute. reflexivity. Qed.

Example flood_wait_capped :
  _extract_flood_wait_time decimal_float (fun _ => "") (JStr "FLOOD_WAIT_86400") []
  = Ok 3600.
Proof. vm_compute. reflexivity. Qed.

(** ** C2: the wait of a throttle response *)

Lemma assoc_get_mem (d : list (string * json)) (key : string) (default : json) :
  assoc_get d key default
  = if assoc_mem d key then assoc_get d key JNull else default.
Proof.
  induction d as [| [k v] d IH]; simpl; [reflexivity |].
  destruct (String.eqb k key); [reflexivity | exact IH].
Qed.

Section Throttle.

Variable float_of_str : string -> option Q.

Lemma number_or_one_in_range (j : json) :
  let q := match j with
           | JNum q => q
           | JBool b => if b then 1 else 0
           | _ => 1
           end in
  float_overflows q = false -> number_or_one j = Ok q.
Proof.
  destruct j as [| b | q | s | l | d]; cbn [number_or_one]; intro H;
    try reflexivity.
  rewrite H. reflexivity.
Qed.

Lemma body_retry_after_claimed (r : response) :
  parameters_is_dict r = true ->
  float_overflows (Claimed.body_field r) = false ->
  body_retry_after r = Ok (Claimed.body_field r).
Proof.
  unfold parameters_is_dict, body_retry_after, Claimed.body_field.
  destruct (body r) as [[| b | q | s | l | d] |]; try reflexivity.
  pose proof (assoc_get_mem d "parameters" (JDict [])) as H1.
  pose proof (assoc_get_mem d "parameters" JNull) as H2.
  destruct (assoc_mem d "parameters") eqn:Hp.
  - rewrite H1.
    destruct (assoc_get d "parameters" JNull) as [| b | q | s | l | p];
      try discriminate.
    intros _.
    rewrite (assoc_get_mem d "retry_after" (assoc_get p "retry_after" (JNum 1))).
    destruct (assoc_mem d "retry_after"); [apply number_or_one_in_range |].
    rewrite (assoc_get_mem p "retry_after" (JNum 1)).
    rewrite (assoc_get_mem p "retry_after" JNull).
    destruct (assoc_mem p "retry_after") eqn:Hm;
      [apply number_or_one_in_range | reflexivity].
  - rewrite H1, H2. intros _.
    rewrite (assoc_get_mem d "retry_after" (assoc_get [] "retry_after" (JNum 1))).
    destruct (assoc_mem d "retry_after"); [apply number_or_one_in_range | reflexivity].
Qed.

Lemma header_retry_after_claimed (r : response) :
  header_retry_after float_of_str r (Claimed.body_field r)
  = Claimed.retry_after float_of_str r.
Proof. reflexivity. Qed.

(** C2, as the client does it.  For a 429 response whose ['parameters']
    entry, if any, is a dict and whose body field is in the range of
    doubles, and a random number [u] in [[0, 1]]: the base is the body
    field (1 when absent or not a number) overridden by a [Retry-After]
    header that parses; the wait is [base * 2^attempt] plus the jitter
    [u * 0.25 * base * 2^attempt], capped at 60 and not clamped from below.
    With a non-negative base the jitter lies in
    [[0, 0.25 * base * 2^attempt]] and the wait in [[0, 60]]; with base 2
    and attempt 1 the wait lies in [[4, 5]]. *)
Theorem handle_rate_limit_error_wait (r : response) (attempt : nat) (w : world) :
  parameters_is_dict r = true ->
  float_overflows (Claimed.body_field r) = false ->
  0 <= rnd w (n_rnd w) <= 1 ->
  exists total w',
    _handle_rate_limit_error float_of_str r attempt w = (Ok total, w')
    /\ let retry_after := Claimed.retry_after float_of_str r in
       let backoff := retry_after * pow2 attempt in
       let jitter := rnd w (n_rnd w) * ((25 # 100) * backoff) in
       total == Qmin (backoff + jitter) 60
       /\ total <= 60
       /\ (0 <= retry_after ->
           0 <= jitter <= (25 # 100) * backoff /\ 0 <= total <= 60)
       /\ (retry_after == 2 -> attempt = 1%nat -> 4 <= total <= 5).
Proof.
  intros Hd Hrange [Hu0 Hu1].
  unfold _handle_rate_limit_error.
  rewrite (body_retry_after_claimed r Hd Hrange), header_retry_after_claimed.
  set (ra := Claimed.retry_after float_of_str r).
  unfold random_uniform, random_random, bind, ret. cbn beta iota.
  eexists. eexists. split; [reflexivity |].
  cbn zeta.
  set (u := rnd w (n_rnd w)) in *.
  pose proof (pow2_pos attempt) as Hp.
  set (p := pow2 attempt) in *.
  assert (Hmin : py_min (ra * p + (0 + (ra * p * (25 # 100) - 0) * u)) 60
                 == Qmin (ra * p + u * ((25 # 100) * (ra * p))) 60).
  { rewrite py_min_Qmin.
    assert (E : ra * p + (0 + (ra * p * (25 # 100) - 0) * u)
                == ra * p + u * ((25 # 100) * (ra * p))) by ring.
    rewrite E. reflexivity. }
  split; [exact Hmin |].
  split; [apply py_min_le_r |].
  split.
  - intro Hra.
    assert (Hb : 0 <= ra * p) by (apply Qmult_le_0_compat; lra).
    assert (Hj : 0 <= u * ((25 # 100) * (ra * p))) by
      (apply Qmult_le_0_compat; lra).
    assert (Hj' : u * ((25 # 100) * (ra * p)) <= (25 # 100) * (ra * p)) by nra.
    split; [split; assumption |].
    split; [| apply py_min_le_r].
    rewrite Hmin. apply Q.min_glb; lra.
  - intros Hra ->.
    assert (Hp2 : p == 2) by (subst p; vm_compute; reflexivity).
    rewrite Hmin.
    assert (E : ra * p + u * ((25 # 100) * (ra * p)) == 4 + u) by
      (rewrite Hra, Hp2; ring).
    rewrite E. rewrite Q.min_l by lra. lra.
Qed.

End Throttle.

Lemma handle_rate_limit_error_wait_witness :
  exists total w',
    _handle_rate_limit_error decimal_float throttled_2 1 world0 = (Ok total, w')
    /\ total <= 60
    /\ 0 <= total
    /\ 4 <= total <= 5.
Proof.
  destruct (handle_rate_limit_error_wait decimal_float throttled_2 1 world0)
    as (total & w' & Hrun & _ & Hcap & Hpos & Hrange).
  - reflexivity.
  - vm_compute. reflexivity.
  - split; vm_compute; discriminate.
  - exists total, w'. split; [exact Hrun |]. split; [exact Hcap |].
    split.
    + apply Hpos. vm_compute. discriminate.
    + apply Hrange; reflexivity.
Defined.

(** With the header [Retry-After: 2], the first retry waits 4.5 seconds
    when the random number is one half. *)
Example throttled_2_attempt_1 :
  match fst (_handle_rate_limit_error decimal_float throttled_2 1 world0) with
  | Ok total => total == 9 # 2
  | Raise _ => False
  end.
Proof. vm_compute. reflexivity. Qed.

(** The claim of C2 is false for a negative base: there is no lower
    clamp.  With the header [Retry-After: -5] the wait of the first
    attempt is [-5 - 0.625], below 0. *)
Lemma negative_retry_after_wait :
  ~ throttle_wait_as_claimed decimal_float negative_retry_after 0 world0.
Proof.
  intros (total & w' & Hrun & _ & Hpos & _).
  vm_compute in Hrun. injection Hrun as <- _.
  apply Hpos. reflexivity.
Qed.

Example negative_retry_after_attempt_0 :
  match fst (_handle_rate_limit_error decimal_float negative_retry_after 0 world0) with
  | Ok total => total == - (45 # 8)
  | Raise _ => False
  end.
Proof. vm_compute. reflexivity. Qed.

(** Outside the hypotheses of C2 the client computes no wait.  A 429
    response whose body is [{"parameters": null}] has no body field, so
    the base of the claim is the default 1; the client evaluates [.get] on
    the [null] inside the [try], and the [AttributeError] is not among the
    exceptions that the [try] swallows.  An integer body field beyond the
    range of doubles ends in an [OverflowError] in the same way.  The
    sibling [_extract_flood_wait_time] tests [isinstance(parameters, dict)]
    first. *)
Example handle_rate_limit_error_parameters_null :
  forall (float_of_str : string -> option Q) (attempt : nat) (w : world),
    Claimed.retry_after float_of_str parameters_null == 1
    /\ _handle_rate_limit_error float_of_str parameters_null attempt w
       = (Raise AttributeError, w)
    /\ _handle_rate_limit_error float_of_str huge_retry_after attempt w
       = (Raise OverflowError, w).
Proof.
  intros float_of_str attempt w.
  split; [reflexivity |]. split; [reflexivity |].
  unfold _handle_rate_limit_error.
  replace (body_retry_after huge_retry_after) with (@Raise Q OverflowError)
    by (vm_compute; reflexivity).
  reflexivity.
Qed.

(** ** C3 and C8: the retry loop of [_request] *)

Section Retry.

Variable float_of_str : string -> option Q.
Variable str_other : json -> string.
Variable json_loads : string -> option json.

Local Abbreviation attempt := (attempt_body float_of_str str_other json_loads).
Local Abbreviation loop := (request_loop float_of_str str_other json_loads).

Lemma time_sleep_nonneg (d : Q) (w : world) :
  0 <= d ->
  time_sleep d w
  = (Ok tt, mkWorld (self w) (clock w + d) (lag w) (n_time w) (rnd w) (n_rnd w)
                    (http w) (n_http w) (provider w) (n_provider w)
                    (EvSleep d :: trace w)).
Proof.
  intro H. unfold time_sleep.
  destruct (Qltb d 0) eqn:E; [apply Qltb_lt in E; exfalso; lra | reflexivity].
Qed.

Lemma throttle_wait_nonneg (ra u : Q) (a : nat) :
  0 <= ra -> 0 <= u ->
  0 <= py_min (ra * pow2 a + (0 + (ra * pow2 a * (25 # 100) - 0) * u)) 60.
Proof.
  intros Hra Hu. pose proof (pow2_pos a) as Hp.
  apply py_min_glb; [| lra].
  assert (0 <= ra * pow2 a) by (apply Qmult_le_0_compat; lra).
  assert (0 <= (ra * pow2 a * (25 # 100) - 0) * u) by
    (apply Qmult_le_0_compat; lra).
  lra.
Qed.

(** A retryable outcome is a throttle or a flood-wait outcome. *)
Lemma retryable_is_limited (o : http_outcome) :
  retryable float_of_str str_other o = true ->
  is_throttle o || is_flood_wait str_other o = true.
Proof.
  unfold retryable, is_throttle, is_flood_wait.
  destruct o as [r |]; [| discriminate].
  destruct (status_code r =? 429)%Z eqn:E; [reflexivity |].
  unfold failed_result. rewrite E.
  destruct (negb (is_success (status_code r))); [discriminate |].
  destruct (body r) as [[| b | q | s | l | res] |]; try discriminate.
  destruct (negb (truthy (assoc_get res "success" JNull))); [| discriminate].
  intro H. apply andb_true_iff in H as [H _]. exact H.
Qed.

(** A retryable outcome before the last attempt: the client sleeps and
    goes on. *)
Lemma attempt_retries (a : nat) (w : world) :
  retryable float_of_str str_other (http w (n_http w)) = true ->
  (Z.of_nat a < max_retries (self w))%Z ->
  0 <= rnd w (n_rnd w) ->
  exists d, 0 <= d /\ attempt a w = (Ok Continue, after_retry d w).
Proof.
  intros Hr Ha Hu.
  unfold attempt_body, bind, client_request, get_self.
  unfold retryable in Hr.
  destruct (http w (n_http w)) as [r |]; [| discriminate].
  cbn [self].
  apply Z.ltb_lt in Ha.
  destruct (status_code r =? 429)%Z eqn:E429.
  - unfold _handle_rate_limit_error.
    destruct (body_retry_after r) as [b |]; [| discriminate].
    apply Qle_bool_iff in Hr.
    unfold random_uniform, random_random, bind, ret. cbn [self rnd n_rnd].
    rewrite Ha.
    eexists. split; [apply (throttle_wait_nonneg _ _ a Hr Hu) |].
    rewrite time_sleep_nonneg by (apply (throttle_wait_nonneg _ _ a Hr Hu)).
    reflexivity.
  - unfold failed_result in Hr. rewrite E429 in Hr.
    destruct (negb (is_success (status_code r))); [discriminate |].
    destruct (body r) as [[| b | q | s | l | res] |]; try discriminate.
    destruct (negb (truthy (assoc_get res "success" JNull))); [| discriminate].
    apply andb_true_iff in Hr as [Hm Hq].
    unfold mentions_flood_wait in Hm. rewrite Hm.
    unfold error_of in Hq.
    destruct (_extract_flood_wait_time float_of_str str_other
                (assoc_get res "error" (JStr "Unknown error")) res) as [q |];
      [| discriminate].
    apply Qle_bool_iff in Hq.
    cbn [self]. rewrite Ha.
    unfold random_uniform, random_random, bind, ret. cbn [self rnd n_rnd].
    assert (Hd : 0 <= q + (0 + (1 - 0) * rnd w (n_rnd w))) by nra.
    eexists. split; [exact Hd |].
    rewrite time_sleep_nonneg by exact Hd.
    reflexivity.
Qed.

(** A retryable outcome on the last attempt: the exhaustion error, after
    one call and no sleep. *)
Lemma attempt_exhausts (a : nat) (w : world) :
  retryable float_of_str str_other (http w (n_http w)) = true ->
  (max_retries (self w) <= Z.of_nat a)%Z ->
  exists e w',
    attempt a w = (Raise e, w')
    /\ exhaustion_error float_of_str str_other (http w (n_http w)) a w = Some e
    /\ trace w' = EvHttp :: trace w.
Proof.
  intros Hr Ha.
  unfold attempt_body, bind, client_request, get_self.
  unfold retryable in Hr. unfold exhaustion_error.
  destruct (http w (n_http w)) as [r |]; [| discriminate].
  cbn [self].
  apply Z.ltb_ge in Ha.
  destruct (status_code r =? 429)%Z eqn:E429.
  - unfold _handle_rate_limit_error.
    destruct (body_retry_after r) as [b |]; [| discriminate].
    unfold random_uniform, random_random, bind, ret, raise.
    cbn [self rnd n_rnd fst]. rewrite Ha.
    eexists. eexists. split; [reflexivity |]. split; reflexivity.
  - unfold failed_result in *. rewrite E429 in *.
    destruct (negb (is_success (status_code r))); [discriminate |].
    destruct (body r) as [[| b | q | s | l | res] |]; try discriminate.
    destruct (negb (truthy (assoc_get res "success" JNull))); [| discriminate].
    apply andb_true_iff in Hr as [Hm Hq].
    unfold mentions_flood_wait in Hm. rewrite Hm.
    unfold error_of in *.
    destruct (_extract_flood_wait_time float_of_str str_other
                (assoc_get res "error" (JStr "Unknown error")) res) as [q |];
      [| discriminate].
    cbn [self]. rewrite Ha. unfold raise.
    eexists. eexists. split; [reflexivity |]. split; reflexivity.
Qed.

Lemma exhaustion_error_shape (o : http_outcome) (a : nat) (w : world) (e : exn) :
  exhaustion_error float_of_str str_other o a w = Some e ->
  (exists q, e = RateLimitError q) \/ (exists q, e = FloodWaitError q).
Proof.
  unfold exhaustion_error.
  destruct o as [r |]; [| discriminate].
  destruct (status_code r =? 429)%Z.
  - destruct (fst (_handle_rate_limit_error float_of_str r a w)) as [q |]; [| discriminate].
    intros [= <-]. left. eexists. reflexivity.
  - destruct (failed_result r) as [res |]; [| discriminate].
    destruct (_extract_flood_wait_time float_of_str str_other (error_of res) res) as [q |]; [| discriminate].
    intros [= <-]. right. eexists. reflexivity.
Qed.

(** The exhaustion error depends on the world through the next random
    number only. *)
Lemma exhaustion_error_ext (o : http_outcome) (a : nat) (w1 w2 : world) :
  rnd w1 (n_rnd w1) = rnd w2 (n_rnd w2) ->
  exhaustion_error float_of_str str_other o a w1 = exhaustion_error float_of_str str_other o a w2.
Proof.
  intro H. unfold exhaustion_error, _handle_rate_limit_error.
  destruct o as [r |]; [| reflexivity].
  destruct (status_code r =? 429)%Z; [| reflexivity].
  destruct (body_retry_after r) as [b |]; [| reflexivity].
  unfold random_uniform, random_random, bind, ret. cbn [fst]. rewrite H.
  reflexivity.
Qed.

Lemma count_http_app (l1 l2 : list event) :
  count_http (l1 ++ l2) = (count_http l1 + count_http l2)%nat.
Proof. unfold count_http. rewrite List.filter_app, List.length_app. reflexivity. Qed.

Lemma count_sleep_app (l1 l2 : list event) :
  count_sleep (l1 ++ l2) = (count_sleep l1 + count_sleep l2)%nat.
Proof. unfold count_sleep. rewrite List.filter_app, List.length_app. reflexivity. Qed.

(** When every remaining attempt meets a retryable outcome, the loop
    makes all of them, sleeps between them and raises the exhaustion error
    of the last one. *)
Lemma loop_exhausts (todo : nat) :
  forall (a : nat) (last_exception : option exn) (w : world),
    max_retries (self w) = Z.of_nat (a + todo) ->
    (forall k, (k <= todo)%nat -> retryable float_of_str str_other (http w (n_http w + k)) = true) ->
    (forall k, 0 <= rnd w k) ->
    exists e w' w_last new,
      loop (S todo) a last_exception w = (Raise e, w')
      /\ trace w' = (new ++ trace w)%list
      /\ count_http new = S todo
      /\ count_sleep new = todo
      /\ rnd w_last = rnd w
      /\ n_rnd w_last = (n_rnd w + todo)%nat
      /\ exhaustion_error float_of_str str_other (http w (n_http w + todo)) (a + todo) w_last = Some e.
Proof.
  induction todo as [| todo IH]; intros a le w Hmax Hout Hrnd.
  - destruct (attempt_exhausts a w) as (e & w' & Hatt & Hex & Htr).
    + specialize (Hout 0%nat (Nat.le_refl _)). rewrite Nat.add_0_r in Hout. exact Hout.
    + rewrite Hmax. lia.
    + exists e, w', w, [EvHttp].
      rewrite !Nat.add_0_r.
      repeat split; try reflexivity; try assumption.
      cbn [request_loop]. rewrite Hatt.
      destruct (exhaustion_error_shape _ _ _ _ Hex) as [[q ->] | [q ->]]; reflexivity.
  - destruct (attempt_retries a w) as (d & Hd & Hatt).
    + specialize (Hout 0%nat (Nat.le_0_l _)). rewrite Nat.add_0_r in Hout. exact Hout.
    + rewrite Hmax. lia.
    + apply Hrnd.
    + destruct (IH (S a) le (after_retry d w)) as (e & w' & wl & new & Hl & Htr & Hh & Hs & Hr & Hn & Hex).
      * cbn [after_retry self]. rewrite Hmax. f_equal. lia.
      * intros k Hk. cbn [after_retry http n_http].
        replace (S (n_http w) + k)%nat with (n_http w + S k)%nat by lia.
        apply Hout. lia.
      * intro k. cbn [after_retry rnd]. apply Hrnd.
      * exists e, w', wl, (new ++ [EvSleep d; EvHttp])%list.
        split.
        { cbn [request_loop]. rewrite Hatt.
          fold loop. exact Hl. }
        split.
        { rewrite Htr. cbn [after_retry trace]. rewrite <- List.app_assoc. reflexivity. }
        split; [rewrite count_http_app, Hh; cbn; lia |].
        split; [rewrite count_sleep_app, Hs; cbn; lia |].
        split; [exact Hr |].
        split; [rewrite Hn; cbn [after_retry n_rnd]; lia |].
        cbn [after_retry http n_http] in Hex.
        replace (n_http w + S todo)%nat with (S (n_http w) + todo)%nat by lia.
        replace (a + S todo)%nat with (S a + todo)%nat by lia.
        exact Hex.
Qed.

(** A successful first answer ends the loop after one call. *)
Lemma loop_succeeds (todo a : nat) (last_exception : option exn) (w : world) :
  is_api_success (http w (n_http w)) = true ->
  exists v w',
    loop (S todo) a last_exception w = (Ok v, w')
    /\ trace w' = EvHttp :: trace w
    /\ clock w' = clock w.
Proof.
  intro H. cbn [request_loop].
  unfold attempt_body, bind, client_request, get_self.
  unfold is_api_success in H.
  destruct (http w (n_http w)) as [r |]; [| discriminate].
  apply andb_true_iff in H as [H Hb]. apply andb_true_iff in H as [H1 H2].
  apply negb_true_iff in H1. cbn [self]. rewrite H1, H2. cbn [negb].
  destruct (body r) as [[| b | q | s | l | res] |]; try discriminate.
  rewrite Hb. cbn [negb].
  destruct (truthy (assoc_get res "data" JNull)).
  - destruct (assoc_get res "data" JNull) as [| b | q | s | l | d];
      try (eexists; eexists; split; [reflexivity | split; reflexivity]).
    destruct (json_loads s);
      eexists; eexists; (split; [reflexivity | split; reflexivity]).
  - eexists; eexists; split; [reflexivity | split; reflexivity].
Qed.

(** The retry budget of the loop alone.  With [max_retries >= 0] and
    non-negative random numbers: when each of the [max_retries + 1]
    attempts meets a throttle (429) or flood-wait outcome whose wait can be
    computed and is not negative, so that it can be slept, the loop of
    [_request] makes exactly [max_retries + 1] calls and [max_retries]
    sleeps, then raises [RateLimitError] or [FloodWaitError] with the wait
    computed for the last outcome on the last attempt; when the first
    answer is a success it returns after exactly one call and no sleep. *)
Theorem request_loop_retry_budget (w : world) :
  (0 <= max_retries (self w))%Z ->
  (forall k, 0 <= rnd w k) ->
  let n := Z.to_nat (max_retries (self w)) in
  ((forall k, (k <= n)%nat -> retryable float_of_str str_other (http w (n_http w + k)) = true) ->
   exists e w' w_last new,
     loop (Z.to_nat (max_retries (self w) + 1)) 0 None w = (Raise e, w')
     /\ trace w' = (new ++ trace w)%list
     /\ count_http new = S n
     /\ count_sleep new = n
     /\ ((exists q, e = RateLimitError q) \/ (exists q, e = FloodWaitError q))
     /\ rnd w_last = rnd w
     /\ n_rnd w_last = (n_rnd w + n)%nat
     /\ exhaustion_error float_of_str str_other (http w (n_http w + n)) n w_last = Some e)
  /\ (is_api_success (http w (n_http w)) = true ->
      exists v w',
        loop (Z.to_nat (max_retries (self w) + 1)) 0 None w = (Ok v, w')
        /\ trace w' = EvHttp :: trace w
        /\ clock w' = clock w).
Proof.
  intros Hmax Hrnd n.
  assert (Hn : Z.to_nat (max_retries (self w) + 1) = S n) by (subst n; lia).
  rewrite Hn. split.
  - intro Hout.
    destruct (loop_exhausts n 0%nat None w) as (e & w' & wl & new & H).
    + subst n. cbn [Nat.add]. lia.
    + exact Hout.
    + exact Hrnd.
    + cbn [Nat.add] in H.
      destruct H as (Hl & Htr & Hh & Hs & Hr & Hi & Hex).
      exists e, w', wl, new.
      repeat split; try assumption.
      eapply exhaustion_error_shape; exact Hex.
  - apply loop_succeeds.
Qed.

(** C8.  A failed API result that is not a flood wait (a validation or
    domain error: not a 429, not a transport failure) is raised at once as
    [TelegramClientError] with the error message of the result, on
    whichever attempt it occurs: one call, no sleep, no random number, the
    clock untouched. *)
Theorem domain_error_not_retried (todo a : nat) (last_exception : option exn)
        (w : world) :
  is_domain_error str_other (http w (n_http w)) = true ->
  exists r res w',
    http w (n_http w) = Response r
    /\ failed_result r = Some res
    /\ loop (S todo) a last_exception w = (Raise (TelegramClientError (error_of res)), w')
    /\ trace w' = EvHttp :: trace w
    /\ n_http w' = S (n_http w)
    /\ n_rnd w' = n_rnd w
    /\ clock w' = clock w.
Proof.
  intro H. unfold is_domain_error in H.
  destruct (http w (n_http w)) as [r |] eqn:Ho; [| discriminate].
  destruct (failed_result r) as [res |] eqn:Hf; [| discriminate].
  apply negb_true_iff in H.
  exists r, res.
  pose proof Hf as Hres.
  cbn [request_loop].
  unfold attempt_body, bind, client_request, get_self. rewrite Ho.
  unfold failed_result in Hf.
  destruct (status_code r =? 429)%Z; [discriminate |].
  destruct (negb (is_success (status_code r))); [discriminate |].
  destruct (body r) as [[| b | q | s | l | res'] |]; try discriminate.
  destruct (negb (truthy (assoc_get res' "success" JNull))); [| discriminate].
  injection Hf as ->.
  unfold mentions_flood_wait in H. rewrite H.
  eexists. split; [reflexivity |]. split; [exact Hres |].
  repeat split; reflexivity.
Qed.

End Retry.

(** *** The retry loop on concrete answers *)

Lemma request_loop_retry_budget_witness :
  (exists e w' w_last new,
      request_loop decimal_float (fun _ => "") (fun _ => None) 4 0 None always_limited
      = (Raise e, w')
      /\ trace w' = (new ++ trace always_limited)%list
      /\ count_http new = 4%nat
      /\ count_sleep new = 3%nat
      /\ ((exists q, e = RateLimitError q) \/ (exists q, e = FloodWaitError q))
      /\ rnd w_last = rnd always_limited
      /\ n_rnd w_last = (n_rnd always_limited + 3)%nat
      /\ exhaustion_error decimal_float (fun _ => "")
           (http always_limited (n_http always_limited + 3)) 3 w_last = Some e)
  /\ (exists v w',
         request_loop decimal_float (fun _ => "") (fun _ => None) 4 0 None
           (world_of (fun _ => Response done_response)) = (Ok v, w')
         /\ trace w' = EvHttp :: trace (world_of (fun _ => Response done_response))
         /\ clock w' = clock (world_of (fun _ => Response done_response))).
Proof.
  split.
  - apply (request_loop_retry_budget decimal_float (fun _ => "") (fun _ => None)
             always_limited).
    + vm_compute. discriminate.
    + intro k. vm_compute. discriminate.
    + intros k Hk. change (Z.to_nat (max_retries (self always_limited))) with 3%nat in Hk.
      destruct k as [| [| [| [| k]]]]; try reflexivity. lia.
  - apply (request_loop_retry_budget decimal_float (fun _ => "") (fun _ => None)
             (world_of (fun _ => Response done_response))).
    + vm_compute. discriminate.
    + intro k. vm_compute. discriminate.
    + reflexivity.
Defined.


(** There the loop makes one call and does not sleep. *)
Example always_negative_run :
  let '(r, w') := request_loop decimal_float (fun _ => "") (fun _ => None) 4 0 None
                    always_negative in
  r = Raise ValueError /\ trace w' = [EvHttp].
Proof. vm_compute. split; reflexivity. Qed.

(** Four limited answers with the default of three retries: four calls,
    three sleeps, then the flood-wait error of the last answer. *)
Example always_limited_run :
  let '(res, w') :=
    _request decimal_float (fun _ => "") (fun _ => None) false None false
             always_limited in
  res = Raise (FloodWaitError 45)
  /\ count_http (trace w') = 4%nat
  /\ count_sleep (trace w') = 3%nat
  /\ count_gate (trace w') = 1%nat.
Proof. vm_compute. repeat split; reflexivity. Qed.

Lemma domain_error_not_retried_witness :
  exists r res w',
    http (world_of (fun _ => Response chat_not_found))
         (n_http (world_of (fun _ => Response chat_not_found))) = Response r
    /\ failed_result r = Some res
    /\ request_loop decimal_float (fun _ => "") (fun _ => None) 4 0 None
         (world_of (fun _ => Response chat_not_found))
       = (Raise (TelegramClientError (error_of res)), w')
    /\ trace w' = EvHttp :: trace (world_of (fun _ => Response chat_not_found))
    /\ n_http w' = S (n_http (world_of (fun _ => Response chat_not_found)))
    /\ n_rnd w' = n_rnd (world_of (fun _ => Response chat_not_found))
    /\ clock w' = clock (world_of (fun _ => Response chat_not_found)).
Proof.
  apply (domain_error_not_retried decimal_float (fun _ => "") (fun _ => None)
           3 0 None (world_of (fun _ => Response chat_not_found))).
  reflexivity.
Defined.

(** A validation error delivered as an HTTP error status (here 422) takes
    the other path: [raise_for_status] raises and the client backs off and
    tries again. *)
Example http_422_is_retried :
  let '(res, w') :=
    request_loop decimal_float (fun _ => "") (fun _ => None) 4 0 None
      (world_of (fun _ => Response (mkResponse 422 [] None))) in
  res = Raise (HTTPStatusError 422)
  /\ count_http (trace w') = 4%nat
  /\ count_sleep (trace w') = 3%nat.
Proof. vm_compute. repeat split; reflexivity. Qed.

(** ** Sleeping for a positive time *)

Lemma time_sleep_pos (d : Q) (w : world) :
  0 < d -> time_sleep d w = advance d w.
Proof.
  intro H. unfold time_sleep.
  destruct (Qltb d 0) eqn:E; [apply Qltb_lt in E; exfalso; lra | reflexivity].
Qed.

Lemma asyncio_sleep_pos (d : Q) (w : world) :
  0 < d -> asyncio_sleep d w = advance d w.
Proof.
  intro H. unfold asyncio_sleep.
  destruct (Qltb 0 d) eqn:E; [reflexivity | apply Qltb_ge in E; exfalso; lra].
Qed.

(** ** C6: the global gate *)

Ltac gate_sleeps Hlt :=
  unfold random_uniform, random_random, bind, ret;
  cbn [self clock lag n_time rnd n_rnd trace];
  rewrite ?time_sleep_pos, ?asyncio_sleep_pos by (apply Qltb_lt in Hlt; nra);
  unfold advance, time_time, modify_self, emit, bind;
  cbn [self clock lag n_time rnd n_rnd trace].

Ltac solve_gate_step Hlag Hrnd w :=
  unfold bind at 1; unfold time_time at 1;
  unfold bind at 1; unfold get_self at 1; cbn [self];
  pose proof (Hlag (n_time w)) as H0; pose proof (Hlag (S (n_time w))) as H1;
  pose proof (Hrnd (n_rnd w)) as Hu;
  let t1 := fresh "t1" in
  let Hlt := fresh "Hlt" in
  destruct (_last_request_time (self w)) as [t1 |];
  [ destruct (Qltb _ _) eqn:Hlt;
    [ gate_sleeps Hlt;
      eexists; eexists; split; [reflexivity |];
      cbn [self set_last_request_time _last_request_time min_request_delay
           lag rnd trace];
      repeat split; try reflexivity;
      [ apply Qltb_lt in Hlt; nra
      | right; eexists; eexists; split; [reflexivity |]; split; [reflexivity |];
        nra ]
    | unfold ret, bind, time_time, modify_self, emit;
      cbn [self clock lag n_time rnd n_rnd trace];
      eexists; eexists; split; [reflexivity |];
      cbn [self set_last_request_time _last_request_time min_request_delay
           lag rnd trace];
      repeat split; try reflexivity;
      [ apply Qltb_ge in Hlt; nra | left; reflexivity ] ]
  | unfold ret, bind, time_time, modify_self, emit;
    cbn [self clock lag n_time rnd n_rnd trace];
    eexists; eexists; split; [reflexivity |];
    cbn [self set_last_request_time _last_request_time min_request_delay
         lag rnd trace];
    repeat split; try reflexivity;
    left; reflexivity ].

Lemma client_gate_step (w : world) :
  (forall k, 0 <= lag w k) -> (forall k, 0 <= rnd w k) ->
  gate_step _wait_for_rate_limit w.
Proof.
  intros Hlag Hrnd. unfold gate_step, _wait_for_rate_limit.
  solve_gate_step Hlag Hrnd w.
Qed.






(** The three times recorded there: 9/40, then twice 9/40 later. *)
Example recently_used_times :
  match fst (acquire_times _wait_for_rate_limit 3 recently_used) with
  | Ok [t1; t2; t3] => t1 == 9 # 40 /\ t2 == 18 # 40 /\ t3 == 27 # 40
  | _ => False
  end.
Proof. vm_compute. repeat split; reflexivity. Qed.

(** ** C7: the cadence gate of a destination *)











(** There the first send to [chat_a] sleeps 3/4 of a second, the send to
    [chat_b], seen for the first time, does not sleep, and the second send
    to [chat_a] sleeps again. *)
Example one_chat_known_sleeps :
  trace (snd (send_times _check_message_rate_limit [chat_a; chat_b] one_chat_known))
  = [EvSleep (1 - ((0 + (3 # 10)) - 0) + (0 + ((1 # 10) - 0) * (1 # 2)))]
  /\ count_sleep
       (trace (snd (send_times _check_message_rate_limit [chat_a; chat_b; chat_a]
                               one_chat_known))) = 2%nat.
Proof. split; reflexivity. Qed.

(** ** C4 and C10: the edit quota *)

Ltac run_monad :=
  unfold bind, time_time, get_self, modify_self, ret, raise, emit, advance,
         random_uniform, random_random, Core.reset_edit_window in *;
  cbn [self clock lag n_time rnd n_rnd http n_http provider n_provider trace
       set_edit_count_last_hour set_edit_count_reset_time set_last_edit_time
       set_last_request_time set_last_message_time_per_chat
       min_request_delay max_retries _last_request_time
       _last_message_time_per_chat _last_edit_time
       _edit_count_last_hour _edit_count_reset_time fst snd] in *.

Ltac not_rejected :=
  idtac; let Hx := fresh in intro Hx; discriminate Hx.

Ltac edit_tail_not_rejected :=
  destruct (_last_edit_time _) as [? |]; run_monad;
  [ destruct (Qltb _ _); run_monad;
    [ unfold time_sleep; destruct (Qltb _ _); run_monad | ]
  | ]; not_rejected.

Lemma Qle_bool_false (a b : Q) : b < a -> Qle_bool a b = false.
Proof.
  intro H. destruct (Qle_bool a b) eqn:E; [| reflexivity].
  apply Qle_bool_iff in E. exfalso; lra.
Qed.

Lemma Qltb_true (a b : Q) : a < b -> Qltb a b = true.
Proof. apply Qltb_lt. Qed.

(** C10.  When [_check_edit_rate_limit] of the client raises
    [RateLimitError], the instance is as it was before the call: the
    three fields of the edit quota, and every other field, are unchanged;
    nothing was slept and the counter was at its ceiling. *)
Theorem edit_quota_rejection_keeps_state (w w' : world) (q : Q) :
  _check_edit_rate_limit w = (Raise (RateLimitError q), w') ->
  _last_edit_time (self w') = _last_edit_time (self w)
  /\ _edit_count_last_hour (self w') = _edit_count_last_hour (self w)
  /\ _edit_count_reset_time (self w') = _edit_count_reset_time (self w)
  /\ self w' = self w
  /\ trace w' = trace w
  /\ (120 <= _edit_count_last_hour (self w))%Z.
Proof.
  unfold _check_edit_rate_limit. run_monad.
  destruct (_edit_count_reset_time (self w)) as [r |] eqn:Er.
  - destruct (Qle_bool r _) eqn:Ele; run_monad.
    + change (120 <=? 0)%Z with false. cbn iota. run_monad. edit_tail_not_rejected.
    + destruct (120 <=? _)%Z eqn:Ec; run_monad.
      * rewrite Er. destruct (Qltb 0 _); run_monad.
        -- intros [= _ <-]. apply Z.leb_le in Ec. cbn [self trace].
           rewrite Er. repeat split; auto.
        -- edit_tail_not_rejected.
      * edit_tail_not_rejected.
  - run_monad. change (120 <=? 0)%Z with false. cbn iota. run_monad.
    edit_tail_not_rejected.
Qed.

Lemma client_window_full (w : world) (r : Q) :
  _edit_count_reset_time (self w) = Some r ->
  (120 <= _edit_count_last_hour (self w))%Z ->
  clock w + lag w (n_time w) < r ->
  exists w', _check_edit_rate_limit w
             = (Raise (RateLimitError (r - (clock w + lag w (n_time w)))), w').
Proof.
  intros Hr Hc Hnow.
  unfold _check_edit_rate_limit. run_monad. rewrite Hr.
  rewrite (Qle_bool_false _ _ Hnow). run_monad.
  apply Z.leb_le in Hc. rewrite Hc, Hr.
  rewrite Qltb_true by lra. run_monad.
  eexists. reflexivity.
Qed.

Lemma core_window_full (w : world) (r : Q) :
  (forall k, 0 <= lag w k) -> (forall k, 0 <= rnd w k) ->
  _edit_count_reset_time (self w) = Some r ->
  (120 <= _edit_count_last_hour (self w))%Z ->
  clock w + lag w (n_time w) < r ->
  blocks_until_reset Core._check_edit_rate_limit w r
                     (r - (clock w + lag w (n_time w))).
Proof.
  intros Hlag Hrnd Hr Hc Hnow.
  pose proof (Hlag (S (n_time w))) as H1.
  pose proof (Hrnd (n_rnd w)) as Hu.
  unfold blocks_until_reset, Core._check_edit_rate_limit. run_monad. rewrite Hr.
  rewrite (Qle_bool_false _ _ Hnow). run_monad.
  apply Z.leb_le in Hc. rewrite Hc, Hr.
  rewrite Qltb_true by lra. run_monad.
  rewrite asyncio_sleep_pos by lra. run_monad.
  assert (Hle : Qle_bool r (clock w + lag w (n_time w)
                            + (r - (clock w + lag w (n_time w)))
                            + lag w (S (n_time w))) = true)
    by (apply Qle_bool_iff; lra).
  rewrite Hle. run_monad.
  destruct (_last_edit_time (self w)) as [l |]; run_monad.
  - destruct (Qltb _ _) eqn:Hlt; run_monad.
    + rewrite asyncio_sleep_pos by (apply Qltb_lt in Hlt; nra). run_monad.
      eexists. eexists. eexists [_]. split; [reflexivity |].
      run_monad. repeat split; try reflexivity. lra.
    + eexists. eexists. exists []. split; [reflexivity |].
      run_monad. repeat split; try reflexivity. lra.
  - eexists. eexists. exists []. split; [reflexivity |].
    run_monad. repeat split; try reflexivity. lra.
Qed.

(** The last block of the function, once the window is settled: it
    sleeps a positive time or not at all, and counts the edit. *)
Ltac edit_tail_counts Hu :=
  destruct (_last_edit_time _) as [? |]; run_monad;
  [ let Hlt := fresh "Hlt" in
    destruct (Qltb _ _) eqn:Hlt; run_monad;
    [ rewrite ?time_sleep_pos, ?asyncio_sleep_pos by (apply Qltb_lt in Hlt; nra);
      run_monad
    | ]
  | ];
  (eexists; split; [reflexivity |]; run_monad;
   split; [first [reflexivity | eassumption] | reflexivity]).

Lemma client_window_expired (w : world) (r : Q) :
  (forall k, 0 <= rnd w k) ->
  _edit_count_reset_time (self w) = Some r ->
  r <= clock w + lag w (n_time w) ->
  window_after _check_edit_rate_limit w (clock w + lag w (n_time w) + 3600) 1.
Proof.
  intros Hrnd Hr Hnow. pose proof (Hrnd (n_rnd w)) as Hu.
  unfold window_after, _check_edit_rate_limit. run_monad. rewrite Hr.
  apply Qle_bool_iff in Hnow. rewrite Hnow. run_monad.
  change (120 <=? 0)%Z with false. cbn iota. run_monad.
  edit_tail_counts Hu.
Qed.

Lemma core_window_expired (w : world) (r : Q) :
  (forall k, 0 <= rnd w k) ->
  _edit_count_reset_time (self w) = Some r ->
  r <= clock w + lag w (n_time w) ->
  window_after Core._check_edit_rate_limit w (clock w + lag w (n_time w) + 3600) 1.
Proof.
  intros Hrnd Hr Hnow. pose proof (Hrnd (n_rnd w)) as Hu.
  unfold window_after, Core._check_edit_rate_limit. run_monad. rewrite Hr.
  apply Qle_bool_iff in Hnow. rewrite Hnow. run_monad.
  change (120 <=? 0)%Z with false. cbn iota. run_monad.
  edit_tail_counts Hu.
Qed.

Lemma client_window_current (w : world) (r : Q) :
  (forall k, 0 <= rnd w k) ->
  _edit_count_reset_time (self w) = Some r ->
  clock w + lag w (n_time w) < r ->
  (_edit_count_last_hour (self w) < 120)%Z ->
  window_after _check_edit_rate_limit w r (_edit_count_last_hour (self w) + 1).
Proof.
  intros Hrnd Hr Hnow Hc. pose proof (Hrnd (n_rnd w)) as Hu.
  unfold window_after, _check_edit_rate_limit. run_monad. rewrite Hr.
  rewrite (Qle_bool_false _ _ Hnow). run_monad.
  apply Z.leb_gt in Hc. rewrite Hc. run_monad.
  edit_tail_counts Hu.
Qed.

Lemma core_window_current (w : world) (r : Q) :
  (forall k, 0 <= rnd w k) ->
  _edit_count_reset_time (self w) = Some r ->
  clock w + lag w (n_time w) < r ->
  (_edit_count_last_hour (self w) < 120)%Z ->
  window_after Core._check_edit_rate_limit w r (_edit_count_last_hour (self w) + 1).
Proof.
  intros Hrnd Hr Hnow Hc. pose proof (Hrnd (n_rnd w)) as Hu.
  unfold window_after, Core._check_edit_rate_limit. run_monad. rewrite Hr.
  rewrite (Qle_bool_false _ _ Hnow). run_monad.
  apply Z.leb_gt in Hc. rewrite Hc. run_monad.
  edit_tail_counts Hu.
Qed.

(** C4.  For an instance whose window ends at [r] (it started at
    [r - 3600]), read at time [now], with a clock that does not go back and
    random numbers that are not negative.
    - With 120 edits or more counted and [now < r], the client fails with
      [RateLimitError] whose [retry_after] is [r - now], the time left in
      the window: positive, and at most 3600 when [now] is not before the
      start of the window; the core sleeps [r - now] and goes on in a new
      window opened at a time that is not before [r].
    - The window is reset (counter to 0 and then 1 for this edit, end of
      the window to [now + 3600]) when [r <= now], and it is kept, the
      counter going up by one, when [now < r] and the quota is not used
      up. *)
Theorem edit_quota_window (w : world) (r : Q) :
  (forall k, 0 <= lag w k) -> (forall k, 0 <= rnd w k) ->
  _edit_count_reset_time (self w) = Some r ->
  let now := clock w + lag w (n_time w) in
  let count := _edit_count_last_hour (self w) in
  ((120 <= count)%Z -> now < r ->
   (exists w', _check_edit_rate_limit w = (Raise (RateLimitError (r - now)), w'))
   /\ r - now == (r - 3600) + 3600 - now
   /\ 0 < r - now
   /\ (r - 3600 <= now -> r - now <= 3600)
   /\ blocks_until_reset Core._check_edit_rate_limit w r (r - now))
  /\ (r <= now ->
      window_after _check_edit_rate_limit w (now + 3600) 1
      /\ window_after Core._check_edit_rate_limit w (now + 3600) 1)
  /\ (now < r -> (count < 120)%Z ->
      window_after _check_edit_rate_limit w r (count + 1)
      /\ window_after Core._check_edit_rate_limit w r (count + 1)).
Proof.
  intros Hlag Hrnd Hr now count. split; [| split].
  - intros Hc Hnow.
    destruct (client_window_full w r Hr Hc Hnow) as [w' Hw'].
    split; [exists w'; exact Hw' |].
    split; [ring |].
    split; [subst now; lra |].
    split; [intro; subst now; lra |].
    apply core_window_full; assumption.
  - intro Hnow. split.
    + apply (client_window_expired w r); assumption.
    + apply (core_window_expired w r); assumption.
  - intros Hnow Hc. split.
    + apply client_window_current; assumption.
    + apply core_window_current; assumption.
Qed.

Lemma edit_quota_window_witness :
  let now := clock quota_used + lag quota_used (n_time quota_used) in
  (exists w', _check_edit_rate_limit quota_used
              = (Raise (RateLimitError (3600 - now)), w'))
  /\ 3600 - now == (3600 - 3600) + 3600 - now
  /\ 0 < 3600 - now
  /\ (3600 - 3600 <= now -> 3600 - now <= 3600)
  /\ blocks_until_reset Core._check_edit_rate_limit quota_used 3600 (3600 - now).
Proof.
  refine (proj1 (edit_quota_window quota_used 3600 _ _ _) _ _).
  - intro k. destruct k; vm_compute; discriminate.
  - intro k. vm_compute. discriminate.
  - reflexivity.
  - vm_compute. discriminate.
  - vm_compute. reflexivity.
Defined.

(** There the client refuses the edit and asks for 1800 seconds; the core
    sleeps these 1800 seconds and counts the edit as the first of a new
    window. *)
Example quota_used_client :
  match fst (_check_edit_rate_limit quota_used) with
  | Raise (RateLimitError q) => q == 1800
  | _ => False
  end.
Proof. vm_compute. reflexivity. Qed.

Example quota_used_core :
  let w' := snd (Core._check_edit_rate_limit quota_used) in
  fst (Core._check_edit_rate_limit quota_used) = Ok tt
  /\ _edit_count_last_hour (self w') = 1%Z
  /\ count_sleep (trace w') = 1%nat.
Proof. vm_compute. repeat split; reflexivity. Qed.

Lemma edit_quota_rejection_keeps_state_witness :
  let w' := snd (_check_edit_rate_limit quota_used) in
  _last_edit_time (self w') = _last_edit_time (self quota_used)
  /\ _edit_count_last_hour (self w') = _edit_count_last_hour (self quota_used)
  /\ _edit_count_reset_time (self w') = _edit_count_reset_time (self quota_used)
  /\ self w' = self quota_used
  /\ trace w' = trace quota_used
  /\ (120 <= _edit_count_last_hour (self quota_used))%Z.
Proof.
  apply (edit_quota_rejection_keeps_state quota_used
           (snd (_check_edit_rate_limit quota_used))
           (3600 - (0 + 1800))).
  reflexivity.
Defined.

(** ** C5: the global gate in the operations of the core *)

Lemma grows_trans (base tr1 tr2 : list event) (g1 p1 g2 p2 : nat) :
  grows base g1 p1 tr1 -> grows tr1 g2 p2 tr2 ->
  grows base (g2 + g1) (p2 + p1) tr2.
Proof.
  intros H1 H2. induction H2; cbn [Nat.add]; try constructor; assumption.
Qed.


(** Case analysis on the tests a computation of the core makes. *)
Ltac crunch :=
  repeat (run_monad; unfold asyncio_sleep, Core.provider_call, try_except in *;
          match goal with
          | H : ?x = _ |- context [match ?x with _ => _ end] => rewrite H
          | |- context [if Qltb ?a ?b then _ else _] => destruct (Qltb a b)
          | |- context [if Qle_bool ?a ?b then _ else _] => destruct (Qle_bool a b)
          | |- context [if Z.leb ?a ?b then _ else _] => destruct (Z.leb a b)
          | |- context [match _last_request_time ?c with _ => _ end] =>
              destruct (_last_request_time c) eqn:?
          | |- context [match _last_edit_time ?c with _ => _ end] =>
              destruct (_last_edit_time c) eqn:?
          | |- context [match _edit_count_reset_time ?c with _ => _ end] =>
              destruct (_edit_count_reset_time c) eqn:?
          | |- context [match lookup ?k ?m with _ => _ end] =>
              destruct (lookup k m)
          | |- context [match provider ?w ?n with _ => _ end] =>
              destruct (provider w n)
          end);
  run_monad.

Ltac trace_of_gate :=
  eexists; split; [reflexivity |]; run_monad; repeat econstructor.

Lemma core_gate_trace (w : world) :
  exists w', Core._wait_for_rate_limit w = (Ok tt, w')
             /\ grows (trace w) 1 0 (trace w').
Proof. unfold Core._wait_for_rate_limit. crunch; trace_of_gate. Qed.







(** [download_media], whose two calls of the gate are commented out in
    the source, makes its three provider calls without any acquisition. *)
Example download_media_no_gate :
  let '(r, w') := Core.download_media (fun _ => None) chat_a served in
  r = Ok Core.Success
  /\ count_gate (trace w') = 0%nat
  /\ count_provider (trace w') = 3%nat.
Proof. vm_compute. repeat split; reflexivity. Qed.

(** ** C9: concurrent acquirers of one gate *)

Module SchedFacts.
Import Sched.







End SchedFacts.



(** The two times recorded by that schedule. *)
Example both_sleep_times :
  match Sched.run both_sleep (Sched.initial (2 # 10) (1 # 10) (Some 0) 2) with
  | Some s =>
      match Sched.acquired s with
      | [t2; t1; t0] => t2 == 212 # 1000 /\ t1 == 211 # 1000 /\ t0 == 0
      | _ => False
      end
  | None => False
  end.
Proof. vm_compute. repeat split; reflexivity. Qed.


Lemma Qle_bool_true (a b : Q) : a <= b -> Qle_bool a b = true.
Proof. apply Qle_bool_iff. Qed.

(** The scheduler and the sequential model agree on a task that runs
    alone: for the lags and the random number of a world, there is a
    schedule of one task that records the time that
    [Core._wait_for_rate_limit] records in that world. *)
Lemma lone_task_matches_core (w : world) :
  (forall k, 0 <= lag w k) -> 0 <= rnd w (n_rnd w) <= 1 ->
  exists acts s t t',
    Sched.run acts (Sched.initial (min_request_delay (self w)) (clock w)
                                  (_last_request_time (self w)) 1) = Some s
    /\ Sched.last s = Some t
    /\ _last_request_time (self (snd (Core._wait_for_rate_limit w))) = Some t'
    /\ t == t'.
Proof.
  intros Hlag [Hu0 Hu1].
  pose proof (Hlag (n_time w)) as H0. pose proof (Hlag (S (n_time w))) as H1.
  set (now0 := clock w + lag w (n_time w)).
  set (j := 0 + ((5 # 100) - 0) * rnd w (n_rnd w)).
  assert (Hj : 0 <= j <= 5 # 100) by (subst j; split; nra).
  unfold Core._wait_for_rate_limit. run_monad.
  destruct (_last_request_time (self w)) as [l |] eqn:Hl.
  - destruct (Qltb (now0 - l) (min_request_delay (self w))) eqn:Hlt.
    + fold now0. rewrite Hlt. run_monad. fold now0 j.
      pose proof Hlt as Hlt'. apply Qltb_lt in Hlt'.
      rewrite asyncio_sleep_pos by lra. run_monad.
      exists [Sched.Tick (lag w (n_time w)); Sched.Begin 0 j 0;
              Sched.Tick (min_request_delay (self w) - (now0 - l) + j);
              Sched.Tick (lag w (S (n_time w))); Sched.Resume 0].
      cbn [Sched.run Sched.step Sched.initial Sched.tasks Sched.now Sched.last
           Sched.delay Sched.tick repeat lookup list_lookup].
      rewrite (Qle_bool_true _ _ H0).
      cbn [Sched.run Sched.step Sched.initial Sched.tasks Sched.now Sched.last
           Sched.delay Sched.tick repeat lookup list_lookup].
      fold now0. rewrite Hlt.
      rewrite (Qle_bool_true 0 j) by lra.
      rewrite (Qle_bool_true j (5 # 100)) by lra.
      rewrite (Qle_bool_true 0 0) by lra.
      cbn [andb].
      rewrite (Qle_bool_true 0 (min_request_delay (self w) - (now0 - l) + j)) by lra.
      rewrite (Qle_bool_true _ _ H1).
      cbn [Sched.suspend Sched.tick Sched.initial Sched.tasks Sched.now Sched.last
           Sched.delay Sched.acquired repeat].
      change (<[0%nat := Sched.Sleeping ?x]> [Sched.Idle] !! 0%nat) with (Some (Sched.Sleeping x)).
      cbn iota.
      rewrite Qle_bool_true by (subst now0; lra).
      eexists. eexists. eexists. split; [reflexivity |].
      split; [reflexivity |]. split; [reflexivity |].
      cbn [Sched.finish Sched.tick Sched.suspend Sched.now Sched.initial]. subst now0 j. ring.
    + fold now0. rewrite Hlt. run_monad.
      exists [Sched.Tick (lag w (n_time w)); Sched.Begin 0 j (lag w (S (n_time w)))].
      cbn [Sched.run Sched.step Sched.initial Sched.tasks Sched.now Sched.last
           Sched.delay Sched.tick repeat lookup list_lookup].
      rewrite (Qle_bool_true _ _ H0).
      cbn [Sched.run Sched.step Sched.initial Sched.tasks Sched.now Sched.last
           Sched.delay Sched.tick repeat lookup list_lookup].
      fold now0. rewrite Hlt.
      rewrite (Qle_bool_true 0 j) by lra.
      rewrite (Qle_bool_true j (5 # 100)) by lra.
      rewrite (Qle_bool_true _ _ H1).
      cbn [andb].
      eexists. eexists. eexists. split; [reflexivity |].
      split; [reflexivity |]. split; [reflexivity |].
      cbn [Sched.finish Sched.tick Sched.now Sched.initial]. reflexivity.
  - exists [Sched.Tick (lag w (n_time w)); Sched.Begin 0 j (lag w (S (n_time w)))].
    cbn [Sched.run Sched.step Sched.initial Sched.tasks Sched.now Sched.last
         Sched.delay Sched.tick repeat lookup list_lookup].
    rewrite (Qle_bool_true _ _ H0).
    cbn [Sched.run Sched.step Sched.initial Sched.tasks Sched.now Sched.last
         Sched.delay Sched.tick repeat lookup list_lookup].
    rewrite (Qle_bool_true 0 j) by lra.
    rewrite (Qle_bool_true j (5 # 100)) by lra.
    rewrite (Qle_bool_true _ _ H1).
    cbn [andb].
    eexists. eexists. eexists. split; [reflexivity |].
    split; [reflexivity |]. split; [reflexivity |].
    cbn [Sched.finish Sched.tick Sched.now Sched.initial]. reflexivity.
Qed.

(** * Further properties of the client *)

(** ** Traces *)

Lemma extends_trans (base tr1 tr2 : list event) (g1 h1 s1 g2 h2 s2 : nat) :
  extends base g1 h1 s1 tr1 -> extends tr1 g2 h2 s2 tr2 ->
  extends base (g2 + g1) (h2 + h1) (s2 + s1) tr2.
Proof.
  intros H1 H2. induction H2; cbn [Nat.add]; try constructor; assumption.
Qed.

Lemma extends_counts (base tr : list event) (g h s : nat) :
  extends base g h s tr ->
  exists new,
    tr = (new ++ base)%list
    /\ count_gate new = g /\ count_http new = h /\ count_sleep new = s
    /\ count_provider new = 0%nat.
Proof.
  induction 1 as [| g h s tr _ (new & -> & Hg & Hh & Hs & Hp)
                  | g h s tr _ (new & -> & Hg & Hh & Hs & Hp)
                  | d g h s tr _ (new & -> & Hg & Hh & Hs & Hp)].
  - exists []. repeat split.
  - exists (EvGate :: new). unfold count_gate, count_http, count_sleep, count_provider in *.
    cbn. rewrite Hg. repeat split; assumption.
  - exists (EvHttp :: new). unfold count_gate, count_http, count_sleep, count_provider in *.
    cbn. rewrite Hh. repeat split; assumption.
  - exists (EvSleep d :: new). unfold count_gate, count_http, count_sleep, count_provider in *.
    cbn. rewrite Hs. repeat split; assumption.
Qed.

Section RequestEffects.

Variable float_of_str : string -> option Q.
Variable str_other : json -> string.
Variable json_loads : string -> option json.

(** Case analysis on the tests a computation of the client makes. *)
Ltac client_crunch :=
  repeat (run_monad; unfold time_sleep, client_request, _handle_rate_limit_error in *;
          match goal with
          | H : ?x = _ |- context [match ?x with _ => _ end] => rewrite H
          | |- context [match http ?w ?n with _ => _ end] => destruct (http w n) eqn:?
          | |- context [if Qltb ?a ?b then _ else _] => destruct (Qltb a b) eqn:?
          | |- context [if Qle_bool ?a ?b then _ else _] => destruct (Qle_bool a b) eqn:?
          | |- context [if Z.leb ?a ?b then _ else _] => destruct (Z.leb a b) eqn:?
          | |- context [match _last_request_time ?c with _ => _ end] =>
              destruct (_last_request_time c) eqn:?
          | |- context [match _last_edit_time ?c with _ => _ end] =>
              destruct (_last_edit_time c) eqn:?
          | |- context [match _edit_count_reset_time ?c with _ => _ end] =>
              destruct (_edit_count_reset_time c) eqn:?
          | |- context [match lookup ?k ?m with _ => _ end] =>
              destruct (lookup k m) eqn:?
          | |- context [if Z.eqb ?a ?b then _ else _] => destruct (Z.eqb a b) eqn:?
          | |- context [if Z.ltb ?a ?b then _ else _] => destruct (Z.ltb a b) eqn:?
          | |- context [if negb ?a then _ else _] => destruct a eqn:?; cbn [negb]
          | |- context [if truthy ?a then _ else _] => destruct (truthy a) eqn:?
          | |- context [if orb ?a ?b then _ else _] => destruct (orb a b) eqn:?
          | |- context [match body_retry_after ?r with _ => _ end] =>
              destruct (body_retry_after r) eqn:?
          | |- context [match _extract_flood_wait_time ?f ?g ?m ?r with _ => _ end] =>
              destruct (_extract_flood_wait_time f g m r) eqn:?
          | |- context [match body ?r with _ => _ end] => destruct (body r) as [[| | | | |] |] eqn:?
          | |- context [match json_loads ?r with _ => _ end] => destruct (json_loads r)
          | |- context [match assoc_get ?a ?b ?c with _ => _ end] => destruct (assoc_get a b c) eqn:?
          end);
  run_monad.

Lemma attempt_body_effect (a : nat) (w : world) :
  attempt_effect a w (fst (attempt_body float_of_str str_other json_loads a w))
                     (snd (attempt_body float_of_str str_other json_loads a w)).
Proof.
  unfold attempt_effect, attempt_body. client_crunch.
  all: repeat (split; [reflexivity |]).
  all: eexists; split; [repeat econstructor |].
  all: split; [lia |].
  all: try (intro Hx; discriminate Hx).
  all: intros _; split; [apply Z.ltb_lt; assumption | reflexivity].
Qed.

Lemma backoff_or_reraise_effect (a : nat) (e : exn) (w : world) :
  backoff_effect a w (fst (backoff_or_reraise a e w)) (snd (backoff_or_reraise a e w)).
Proof.
  unfold backoff_effect, backoff_or_reraise. client_crunch.
  all: repeat (split; [reflexivity |]).
  all: eexists; split; [repeat econstructor |].
  all: split; [lia |].
  all: split; [try (intro Hx; discriminate Hx); intros _; apply Z.ltb_lt; assumption |].
  all: try reflexivity; intro Hx; discriminate Hx.
Qed.

Lemma request_loop_effect (todo : nat) :
  forall (a : nat) (le : option exn) (w : world),
    loop_effect todo a w
      (snd (request_loop float_of_str str_other json_loads todo a le w)).
Proof.
  induction todo as [| todo IH]; intros a le w.
  - cbn [request_loop]. destruct le; unfold raise; cbn [snd]; (split; [reflexivity |]);
      exists 0%nat, 0%nat; (split; [constructor |]); repeat split; lia.
  - cbn [request_loop].
    pose proof (attempt_body_effect a w) as Ha.
    destruct (attempt_body float_of_str str_other json_loads a w) as [r1 w1].
    cbn [fst snd] in Ha.
    destruct Ha as (Hself & Hlag & Hrnd & Hhttp & Hn & s1 & Hext & Hs1 & Hsleep).
    assert (Hcont : forall le',
               loop_effect (S todo) a w
                 (snd (request_loop float_of_str str_other json_loads todo (S a) le' w1))).
    { intro le'. destruct (IH (S a) le' w1) as (Hself' & h & s & Hext' & Hh & Hsh & Hs & Hn').
      split; [congruence |].
      exists (h + 1)%nat, (s + s1)%nat.
      split; [apply (extends_trans _ _ _ _ _ _ _ _ _ Hext Hext') |].
      rewrite Hself in Hs.
      repeat split; lia. }
    assert (Himp : s1 = 1%nat -> r1 = Ok Continue) by (intro E; apply Hsleep, E).
    assert (Hstop : r1 <> Ok Continue -> loop_effect (S todo) a w w1).
    { intros Hne. split; [exact Hself |].
      assert (s1 = 0%nat).
      { destruct (Nat.eq_dec s1 1%nat) as [E | E]; [exfalso; apply Hne, Himp, E | lia]. }
      subst s1. exists 1%nat, 0%nat. repeat split; try assumption; lia. }
    assert (Hback : forall e, r1 <> Ok Continue ->
               loop_effect (S todo) a w
                 (snd ((bind (backoff_or_reraise a e)
                         (fun _ => request_loop float_of_str str_other json_loads
                                     todo (S a) (Some e))) w1))).
    { intros e Hne.
      assert (s1 = 0%nat).
      { destruct (Nat.eq_dec s1 1%nat) as [E | E]; [exfalso; apply Hne, Himp, E | lia]. }
      subst s1.
      pose proof (backoff_or_reraise_effect a e w1) as Hb.
      unfold bind.
      destruct (backoff_or_reraise a e w1) as [rb w2]. cbn [fst snd] in Hb.
      destruct Hb as (Hself2 & _ & _ & _ & Hn2 & s2 & Hext2 & Hs2 & Hlt2 & Hok2).
      destruct rb as [[] | eb].
      - destruct (IH (S a) (Some e) w2) as (Hself' & h & s & Hext' & Hh & Hsh & Hs & Hn').
        split; [congruence |].
        exists (h + 1)%nat, (s + s2)%nat.
        split.
        { pose proof (extends_trans _ _ _ _ _ _ _ _ _ Hext Hext2) as H12.
          pose proof (extends_trans _ _ _ _ _ _ _ _ _ H12 Hext') as H.
          cbn [Nat.add] in H. replace (h + 1)%nat with (h + (0 + 1))%nat by lia.
          replace (s + s2)%nat with (s + (s2 + 0))%nat by lia.
          exact H. }
        rewrite Hself2, Hself in Hs. rewrite Hself in Hlt2.
        repeat split; lia.
      - cbn [snd]. split; [congruence |].
        exists 1%nat, s2. 
        split.
        { pose proof (extends_trans _ _ _ _ _ _ _ _ _ Hext Hext2) as H12.
          cbn [Nat.add] in H12. replace s2 with (s2 + 0)%nat by lia. exact H12. }
        rewrite Hself in Hlt2.
        repeat split; lia. }
    destruct r1 as [[| v] | e].
    + apply Hcont.
    + cbn [snd]. apply Hstop; discriminate.
    + destruct e as [q | q | m | st | | | | | sec | | |];
        try (cbn [snd]; apply Hstop; discriminate).
      * destruct (st =? 429)%Z.
        -- apply Hcont.
        -- apply Hback. discriminate.
      * apply Hback. discriminate.
Qed.

Ltac gate_effect_tac :=
  client_crunch;
  repeat (split; [reflexivity |]);
  eexists; eexists; (split; [repeat econstructor |]);
  (split; [lia |]); first [reflexivity | not_rejected].

Lemma client_gate_effect (w : world) :
  gate_effect 1 w (fst (_wait_for_rate_limit w)) (snd (_wait_for_rate_limit w)).
Proof. unfold gate_effect, _wait_for_rate_limit. gate_effect_tac. Qed.

Lemma client_cadence_effect (c : chat_id) (w : world) :
  gate_effect 0 w (fst (_check_message_rate_limit c w))
                  (snd (_check_message_rate_limit c w)).
Proof. unfold gate_effect, _check_message_rate_limit. gate_effect_tac. Qed.

Lemma client_edit_effect (w : world) :
  gate_effect 0 w (fst (_check_edit_rate_limit w)) (snd (_check_edit_rate_limit w)).
Proof. unfold gate_effect, _check_edit_rate_limit. gate_effect_tac. Qed.

Lemma ret_effect (w : world) : gate_effect 0 w (fst (ret tt w)) (snd (ret tt w)).
Proof.
  unfold gate_effect, ret. cbn [fst snd]. repeat (split; [reflexivity |]).
  exists 0%nat, 0%nat. split; [constructor |]. split; [lia | reflexivity].
Qed.

Lemma gates_effect (check : bool) (chat : option chat_id) (is_edit : bool) (w : world) :
  gate_effect 1 w (fst (gates check chat is_edit w)) (snd (gates check chat is_edit w)).
Proof.
  destruct (gates check chat is_edit w) as [r w'] eqn:Hrun. cbn [fst snd].
  unfold gates, bind in Hrun.
  set (first := if is_edit then _check_edit_rate_limit else ret tt) in Hrun.
  set (second := match check, chat with
                 | true, Some ch => _check_message_rate_limit ch
                 | _, _ => ret tt
                 end) in Hrun.
  assert (H1 : gate_effect 0 w (fst (first w)) (snd (first w)))
    by (subst first; destruct is_edit; [apply client_edit_effect | apply ret_effect]).
  destruct (first w) as [r1 w1]. cbn [fst snd] in H1.
  destruct H1 as (Hm1 & Hh1 & Hn1 & g1 & s1 & He1 & Hg1 & Hok1).
  destruct r1 as [[] | e1].
  - assert (H2 : gate_effect 0 w1 (fst (second w1)) (snd (second w1))).
    { subst second. destruct check; [| apply ret_effect].
      destruct chat; [apply client_cadence_effect | apply ret_effect]. }
    destruct (second w1) as [r2 w2]. cbn [fst snd] in H2.
    destruct H2 as (Hm2 & Hh2 & Hn2 & g2 & s2 & He2 & Hg2 & Hok2).
    destruct r2 as [[] | e2].
    + pose proof (client_gate_effect w2) as H3. rewrite Hrun in H3.
      cbn [fst snd] in H3.
      destruct H3 as (Hm3 & Hh3 & Hn3 & g3 & s3 & He3 & Hg3 & Hok3).
      split; [congruence |]. split; [congruence |]. split; [congruence |].
      exists (g3 + (g2 + g1))%nat, (s3 + (s2 + s1))%nat.
      split.
      { pose proof (extends_trans _ _ _ _ _ _ _ _ _ He1 He2) as H12.
        exact (extends_trans _ _ _ _ _ _ _ _ _ H12 He3). }
      split; [lia |]. intro Hr. specialize (Hok3 Hr). lia.
    + injection Hrun as <- <-.
      split; [congruence |]. split; [congruence |]. split; [congruence |].
      exists (g2 + g1)%nat, (s2 + s1)%nat.
      split; [exact (extends_trans _ _ _ _ _ _ _ _ _ He1 He2) |].
      split; [lia |]. intro Hx; discriminate Hx.
  - injection Hrun as <- <-.
    split; [congruence |]. split; [congruence |]. split; [congruence |].
    exists g1, s1. split; [exact He1 |]. split; [lia |]. intro Hx; discriminate Hx.
Qed.

Lemma request_unfold (check : bool) (chat : option chat_id) (is_edit : bool) (w : world) :
  _request float_of_str str_other json_loads check chat is_edit w
  = match gates check chat is_edit w with
    | (Ok _, w1) =>
        request_loop float_of_str str_other json_loads
          (Z.to_nat (max_retries (self w1) + 1)) 0 None w1
    | (Raise e, w1) => (Raise e, w1)
    end.
Proof.
  unfold _request, gates, bind, get_self.
  destruct ((if is_edit then _check_edit_rate_limit else ret tt) w) as [[[] | e1] w1];
    [| reflexivity].
  destruct (match check, chat with
            | true, Some ch => _check_message_rate_limit ch
            | _, _ => ret tt
            end w1) as [[[] | e2] w2]; [| reflexivity].
  destruct (_wait_for_rate_limit w2) as [[[] | e3] w3]; reflexivity.
Qed.

Lemma pow2_S (a : nat) : pow2 (S a) == 2 * pow2 a.
Proof.
  unfold pow2. rewrite Nat2Z.inj_succ, Z.pow_succ_r by lia.
  rewrite inject_Z_mult. reflexivity.
Qed.

Lemma attempt_transient (a : nat) (w : world) :
  is_transient (http w (n_http w)) = true ->
  attempt_body float_of_str str_other json_loads a w
  = (Raise (transient_error (http w (n_http w))),
     mkWorld (self w) (clock w) (lag w) (n_time w) (rnd w) (n_rnd w)
             (http w) (S (n_http w)) (provider w) (n_provider w)
             (EvHttp :: trace w)).
Proof.
  intro H. unfold attempt_body, bind, client_request, get_self, raise.
  unfold is_transient in H. unfold transient_error.
  destruct (http w (n_http w)) as [r |]; [| reflexivity].
  apply andb_true_iff in H as [H1 H2]. apply negb_true_iff in H1.
  cbn [self]. rewrite H1, H2. reflexivity.
Qed.

Lemma transient_error_shape (o : http_outcome) :
  is_transient o = true ->
  transient_error o = RequestError
  \/ exists s, transient_error o = HTTPStatusError s /\ (s =? 429)%Z = false.
Proof.
  destruct o as [r |]; cbn; [| left; reflexivity].
  intro H. apply andb_true_iff in H as [H _]. apply negb_true_iff in H.
  right. exists (status_code r). split; [reflexivity | exact H].
Qed.

Lemma loop_transient (todo : nat) :
  forall (a : nat) (le : option exn) (w : world),
    max_retries (self w) = Z.of_nat (a + todo) ->
    (forall k, (k <= todo)%nat -> is_transient (http w (n_http w + k)) = true) ->
    (forall k, 0 <= rnd w k) ->
    exists w' new,
      request_loop float_of_str str_other json_loads (S todo) a le w
      = (Raise (transient_error (http w (n_http w + todo))), w')
      /\ trace w' = (new ++ trace w)%list
      /\ count_http new = S todo
      /\ count_sleep new = todo
      /\ pow2 (a + todo) - pow2 a <= clock w' - clock w
      /\ ((forall k, rnd w k <= 1) ->
          clock w' - clock w <= pow2 (a + todo) - pow2 a + inject_Z (Z.of_nat todo)).
Proof.
  induction todo as [| todo IH]; intros a le w Hmax Hout Hrnd.
  - pose proof (Hout 0%nat (Nat.le_refl _)) as Ht. rewrite Nat.add_0_r in Ht.
    rewrite !Nat.add_0_r.
    eexists. exists [EvHttp].
    split.
    { cbn [request_loop]. rewrite (attempt_transient a w Ht).
      unfold backoff_or_reraise, bind, get_self. cbn [self].
      assert (Hlt : (Z.of_nat a <? max_retries (self w))%Z = false)
        by (apply Z.ltb_ge; lia).
      destruct (transient_error_shape _ Ht) as [-> | (s & -> & Hs)].
      - rewrite Hlt. reflexivity.
      - rewrite Hs, Hlt. reflexivity. }
    cbn [trace clock]. repeat split; try reflexivity.
    + lra.
    + intros _. change (inject_Z (Z.of_nat 0)) with 0. lra.
  - pose proof (Hout 0%nat (Nat.le_0_l _)) as Ht. rewrite Nat.add_0_r in Ht.
    pose proof (Hrnd (n_rnd w)) as Hu.
    pose proof (pow2_pos a) as Hp.
    set (d := pow2 a + (0 + (1 - 0) * rnd w (n_rnd w))).
    assert (Hd : 0 <= d) by (subst d; lra).
    destruct (IH (S a) (Some (transient_error (http w (n_http w)))) (after_retry d w))
      as (w' & new & Hl & Htr & Hh & Hs & Hlo & Hhi).
    + cbn [after_retry self]. rewrite Hmax. f_equal. lia.
    + intros k Hk. cbn [after_retry http n_http].
      replace (S (n_http w) + k)%nat with (n_http w + S k)%nat by lia.
      apply Hout. lia.
    + intro k. cbn [after_retry rnd]. apply Hrnd.
    + cbn [after_retry http n_http rnd clock trace] in *.
      replace (S (n_http w) + todo)%nat with (n_http w + S todo)%nat in Hl by lia.
      replace (S a + todo)%nat with (a + S todo)%nat in * by lia.
      exists w', (new ++ [EvSleep d; EvHttp])%list.
      split.
      { cbn [request_loop]. rewrite (attempt_transient a w Ht).
        assert (Hlt : (Z.of_nat a <? max_retries (self w))%Z = true)
          by (apply Z.ltb_lt; lia).
        assert (Hback : forall e,
                   backoff_or_reraise a e
                     (mkWorld (self w) (clock w) (lag w) (n_time w) (rnd w) (n_rnd w)
                              (http w) (S (n_http w)) (provider w) (n_provider w)
                              (EvHttp :: trace w))
                   = (Ok tt, after_retry d w)).
        { intro e. unfold backoff_or_reraise, random_uniform, random_random.
          unfold bind, get_self, ret.
          cbn [self rnd n_rnd]. rewrite Hlt.
          rewrite time_sleep_nonneg by (exact Hd). reflexivity. }
        destruct (transient_error_shape _ Ht) as [E | (st & E & Hst)]; rewrite E in *.
        - unfold bind. rewrite Hback. exact Hl.
        - rewrite Hst. unfold bind. rewrite Hback. exact Hl. }
      split; [rewrite Htr, <- List.app_assoc; reflexivity |].
      split; [rewrite count_http_app, Hh; cbn; lia |].
      split; [rewrite count_sleep_app, Hs; cbn; lia |].
      pose proof (pow2_S a) as HS.
      split.
      * subst d. lra.
      * intro H1. specialize (Hhi H1). pose proof (H1 (n_rnd w)) as Hu1.
        rewrite Nat2Z.inj_succ. unfold Z.succ. rewrite inject_Z_plus.
        change (inject_Z 1) with 1. subst d. lra.
Qed.


(** X1.  When each of the [max_retries + 1] attempts meets a transport
    failure or an error status other than 429, the loop makes all the
    attempts, sleeps [2^attempt + random.uniform(0, 1)] after each but the
    last, and raises the exception of the last attempt: the total time
    slept is at least [2^max_retries - 1] seconds and, for random numbers
    at most 1, at most [max_retries] seconds more. *)
Theorem transient_failures_back_off (w : world) :
  (0 <= max_retries (self w))%Z ->
  (forall k, 0 <= rnd w k) ->
  let n := Z.to_nat (max_retries (self w)) in
  (forall k, (k <= n)%nat -> is_transient (http w (n_http w + k)) = true) ->
  exists w' new,
    request_loop float_of_str str_other json_loads
      (Z.to_nat (max_retries (self w) + 1)) 0 None w
    = (Raise (transient_error (http w (n_http w + n))), w')
    /\ trace w' = (new ++ trace w)%list
    /\ count_http new = S n
    /\ count_sleep new = n
    /\ pow2 n - 1 <= clock w' - clock w
    /\ ((forall k, rnd w k <= 1) ->
        clock w' - clock w <= pow2 n - 1 + inject_Z (Z.of_nat n)).
Proof.
  intros Hmax Hrnd n Hout.
  assert (Hn : Z.to_nat (max_retries (self w) + 1) = S n) by (subst n; lia).
  rewrite Hn.
  destruct (loop_transient n 0%nat None w) as (w' & new & H).
  - subst n. cbn [Nat.add]. lia.
  - exact Hout.
  - exact Hrnd.
  - cbn [Nat.add] in H. change (pow2 0) with 1 in H.
    exists w', new. exact H.
Qed.

(** X2.  Whatever the server answers, the loop of [_request] makes at
    most [max_retries + 1] HTTP calls, sleeps at most [max_retries] times
    and never more often than it calls, does not acquire the global gate,
    and leaves every field of the instance as it was: retries do not
    refresh the time of the last request. *)
Theorem request_loop_bounded (w : world) :
  let w' := snd (request_loop float_of_str str_other json_loads
                   (Z.to_nat (max_retries (self w) + 1)) 0 None w) in
  self w' = self w
  /\ exists new,
      trace w' = (new ++ trace w)%list
      /\ (count_http new <= Z.to_nat (max_retries (self w) + 1))%nat
      /\ (count_sleep new <= count_http new)%nat
      /\ (Z.of_nat (count_sleep new) <= Z.max 0 (max_retries (self w)))%Z
      /\ count_gate new = 0%nat
      /\ n_http w' = (n_http w + count_http new)%nat.
Proof.
  cbn zeta.
  destruct (request_loop_effect (Z.to_nat (max_retries (self w) + 1)) 0 None w)
    as (Hself & h & s & Hext & Hh & Hsh & Hs & Hn).
  split; [exact Hself |].
  destruct (extends_counts _ _ _ _ _ Hext) as (new & Hnew & Hg & Hc & Hsl & _).
  exists new. rewrite Hc, Hsl, Hg.
  repeat split; try assumption; lia.
Qed.

(** X3.  Whatever the arguments and the answers, [_request] passes its
    gates before the first HTTP call and only once: its trace is a part
    with at most one acquisition of the global gate and no HTTP call,
    followed by a part with the HTTP calls (at most [max_retries + 1]) and
    no acquisition; an HTTP call is made only when the gate was acquired. *)
Theorem request_gate_before_calls (check : bool) (chat : option chat_id)
        (is_edit : bool) (w : world) :
  let w' := snd (_request float_of_str str_other json_loads check chat is_edit w) in
  exists at_gate g h s1 s2,
    extends (trace w) g 0 s1 at_gate
    /\ extends at_gate 0 h s2 (trace w')
    /\ (g <= 1)%nat
    /\ (1 <= h -> g = 1)%nat
    /\ (h <= Z.to_nat (max_retries (self w) + 1))%nat
    /\ (Z.of_nat s2 <= Z.max 0 (max_retries (self w)))%Z.
Proof.
  cbn zeta. rewrite request_unfold.
  pose proof (gates_effect check chat is_edit w) as Hg.
  destruct (gates check chat is_edit w) as [r1 w1]. cbn [fst snd] in Hg.
  destruct Hg as (Hm & _ & _ & g & s1 & He & Hle & Hok).
  destruct r1 as [[] | e].
  - destruct (request_loop_effect (Z.to_nat (max_retries (self w1) + 1)) 0 None w1)
      as (_ & h & s2 & He2 & Hh & _ & Hs & _).
    exists (trace w1), g, h, s1, s2.
    rewrite Hm in *. specialize (Hok eq_refl).
    repeat split; try assumption; lia.
  - cbn [snd]. exists (trace w1), g, 0%nat, s1, 0%nat.
    repeat split; try assumption; try constructor; lia.
Qed.

(** The world in which the client refuses an edit. *)
Lemma client_window_full_world (w : world) (r : Q) :
  _edit_count_reset_time (self w) = Some r ->
  (120 <= _edit_count_last_hour (self w))%Z ->
  clock w + lag w (n_time w) < r ->
  _check_edit_rate_limit w
  = (Raise (RateLimitError (r - (clock w + lag w (n_time w)))),
     mkWorld (self w) (clock w + lag w (n_time w)) (lag w) (S (n_time w)) (rnd w)
             (n_rnd w) (http w) (n_http w) (provider w) (n_provider w) (trace w)).
Proof.
  intros Hr Hc Hnow.
  unfold _check_edit_rate_limit. run_monad. rewrite Hr.
  rewrite (Qle_bool_false _ _ Hnow). run_monad.
  apply Z.leb_le in Hc. rewrite Hc, Hr.
  rewrite Qltb_true by lra. run_monad.
  reflexivity.
Qed.

(** X4.  An edit that the quota refuses goes no further: [edit_message]
    raises the [RateLimitError] of the quota without acquiring the global
    gate and without any HTTP call, and the instance is unchanged. *)
Theorem edit_message_refused_before_any_call (w : world) (r : Q) :
  _edit_count_reset_time (self w) = Some r ->
  (120 <= _edit_count_last_hour (self w))%Z ->
  clock w + lag w (n_time w) < r ->
  exists w',
    Requests.edit_message float_of_str str_other json_loads w
    = (Raise (RateLimitError (r - (clock w + lag w (n_time w)))), w')
    /\ trace w' = trace w
    /\ n_http w' = n_http w
    /\ self w' = self w.
Proof.
  intros Hr Hc Hnow.
  unfold Requests.edit_message, Requests._put, _request.
  unfold bind at 1. rewrite (client_window_full_world w r Hr Hc Hnow).
  eexists. split; [reflexivity |]. repeat split; reflexivity.
Qed.

(** X5.  With a negative [max_retries] the loop has no iteration: a
    request passes the global gate, makes no HTTP call and raises
    [TelegramClientError] with the text of the end of the function. *)
Theorem request_without_attempts (w : world) :
  (max_retries (self w) < 0)%Z ->
  (forall k, 0 <= lag w k) -> (forall k, 0 <= rnd w k) ->
  exists w',
    Requests._get float_of_str str_other json_loads w
    = (Raise (TelegramClientError (JStr "Request failed after all retries")), w')
    /\ n_http w' = n_http w
    /\ (exists new, trace w' = (new ++ trace w)%list
                    /\ count_http new = 0%nat /\ count_gate new = 1%nat).
Proof.
  intros Hmax Hlag Hrnd.
  unfold Requests._get. rewrite request_unfold.
  pose proof (gates_effect false None false w) as Hg.
  assert (Hrun : exists w1, gates false None false w = (Ok tt, w1)).
  { unfold gates. unfold bind at 1. unfold ret at 1.
    unfold bind at 1. unfold ret at 1.
    destruct (client_gate_step w Hlag Hrnd) as (w1 & t2 & Hrun & _).
    exists w1. exact Hrun. }
  destruct Hrun as [w1 Hrun]. rewrite Hrun in *. cbn [fst snd] in Hg.
  destruct Hg as (Hm & _ & Hn & g & s & Hext & _ & Hok).
  specialize (Hok eq_refl). subst g.
  replace (Z.to_nat (max_retries (self w1) + 1)) with 0%nat by lia.
  cbn [request_loop]. unfold raise.
  exists w1. split; [reflexivity |]. split; [exact Hn |].
  destruct (extends_counts _ _ _ _ _ Hext) as (new & Hnew & Hg & Hc & _).
  exists new. repeat split; assumption.
Qed.

(** X19.  The client's [send_message] never sends: [chat_id] reaches
    [_post] both in [**data] and by name, so the call raises [TypeError]
    whatever the arguments, before any gate is passed and before any HTTP
    call; [forward_message], which names all its arguments, passes the
    cadence gate of the destination and the global gate. *)
Theorem client_send_message_raises (chat : chat_id)
        (message reply_to parse_mode : json) (w : world) :
  Requests.send_message float_of_str str_other json_loads chat message reply_to
    parse_mode w
  = (Raise TypeError, w)
  /\ forall from_chat,
      Requests.forward_message float_of_str str_other json_loads from_chat chat w
      = _request float_of_str str_other json_loads true (Some chat) false w.
Proof.
  split; [| reflexivity].
  unfold Requests.send_message, Requests.call_with_kwargs.
  destruct (truthy reply_to), (truthy parse_mode); reflexivity.
Qed.

End RequestEffects.

Lemma transient_failures_back_off_witness :
  exists w' new,
    request_loop decimal_float (fun _ => "") (fun _ => None) 4 0 None always_failing
    = (Raise (HTTPStatusError 503), w')
    /\ trace w' = (new ++ trace always_failing)%list
    /\ count_http new = 4%nat
    /\ count_sleep new = 3%nat
    /\ pow2 3 - 1 <= clock w' - clock always_failing
    /\ ((forall k, rnd always_failing k <= 1) ->
        clock w' - clock always_failing <= pow2 3 - 1 + inject_Z (Z.of_nat 3)).
Proof.
  apply (transient_failures_back_off decimal_float (fun _ => "") (fun _ => None)
           always_failing).
  - vm_compute. discriminate.
  - intro k. vm_compute. discriminate.
  - intros k Hk. change (Z.to_nat (max_retries (self always_failing))) with 3%nat in Hk.
    destruct k as [| [| [| [| k]]]]; try reflexivity. lia.
Defined.

(** There the client sleeps 1.5, 2.5 and 4.5 seconds. *)
Example always_failing_sleeps :
  match trace (snd (request_loop decimal_float (fun _ => "") (fun _ => None) 4 0 None
                      always_failing)) with
  | [EvHttp; EvSleep d3; EvHttp; EvSleep d2; EvHttp; EvSleep d1; EvHttp] =>
      d1 == 3 # 2 /\ d2 == 5 # 2 /\ d3 == 9 # 2
  | _ => False
  end.
Proof. vm_compute. repeat split; reflexivity. Qed.

Lemma edit_message_refused_before_any_call_witness :
  exists w',
    Requests.edit_message decimal_float (fun _ => "") (fun _ => None) quota_used
    = (Raise (RateLimitError
                (3600 - (clock quota_used + lag quota_used (n_time quota_used)))), w')
    /\ trace w' = trace quota_used
    /\ n_http w' = n_http quota_used
    /\ self w' = self quota_used.
Proof.
  apply (edit_message_refused_before_any_call decimal_float (fun _ => "")
           (fun _ => None) quota_used 3600).
  - reflexivity.
  - vm_compute. discriminate.
  - vm_compute. reflexivity.
Defined.

Lemma request_without_attempts_witness :
  exists w',
    Requests._get decimal_float (fun _ => "") (fun _ => None) no_attempts
    = (Raise (TelegramClientError (JStr "Request failed after all retries")), w')
    /\ n_http w' = n_http no_attempts
    /\ (exists new, trace w' = (new ++ trace no_attempts)%list
                    /\ count_http new = 0%nat /\ count_gate new = 1%nat).
Proof.
  apply (request_without_attempts decimal_float (fun _ => "") (fun _ => None)
           no_attempts).
  - reflexivity.
  - intro k. vm_compute. discriminate.
  - intro k. vm_compute. discriminate.
Defined.

(** * The retry budget of a request *)

Section RequestBudget.

Variable float_of_str : string -> option Q.
Variable str_other : json -> string.
Variable json_loads : string -> option json.







End RequestBudget.


(** * Recovery of a request *)

Section Recovery.

Variable float_of_str : string -> option Q.
Variable str_other : json -> string.
Variable json_loads : string -> option json.

Local Abbreviation loop := (request_loop float_of_str str_other json_loads).

(** An answer after which the loop sleeps and tries again, when an
    attempt is left. *)
Local Abbreviation tried_again o :=
  (retryable float_of_str str_other o || is_transient o).





End Recovery.


(** * Further properties of the gates of an edit *)

Ltac q_facts :=
  repeat match goal with
         | H : Qltb _ _ = true |- _ => apply Qltb_lt in H
         | H : Qltb _ _ = false |- _ => apply Qltb_ge in H
         | H : Qle_bool _ _ = true |- _ => apply Qle_bool_iff in H
         | H : Qle_bool _ _ = false |- _ =>
             apply not_true_iff_false in H; rewrite Qle_bool_iff in H
         | H : Z.leb _ _ = true |- _ => apply Z.leb_le in H
         | H : Z.leb _ _ = false |- _ => apply Z.leb_gt in H
         end.

Ltac gate_crunch :=
  repeat (run_monad; unfold time_sleep, asyncio_sleep in *;
          match goal with
          | H : ?x = _ |- context [match ?x with _ => _ end] => rewrite H
          | |- context [if Qltb ?a ?b then _ else _] => destruct (Qltb a b) eqn:?
          | |- context [if Qle_bool ?a ?b then _ else _] => destruct (Qle_bool a b) eqn:?
          | |- context [if Z.leb ?a ?b then _ else _] => destruct (Z.leb a b) eqn:?
          | |- context [match _last_edit_time ?c with _ => _ end] =>
              destruct (_last_edit_time c) eqn:?
          | |- context [match _edit_count_reset_time ?c with _ => _ end] =>
              destruct (_edit_count_reset_time c) eqn:?
          end);
  run_monad.



(** X8.  The client keeps the count of the edits of the hour between 0
    and 120: the counter goes up only below 120, and a rejected edit or
    the start of a new window does not take it out of the range. *)
Theorem client_edit_count_within_quota (w : world) :
  quota_within (self w) ->
  quota_within (self (snd (_check_edit_rate_limit w))).
Proof.
  unfold quota_within. intros Hq.
  unfold _check_edit_rate_limit. gate_crunch.
  all: q_facts; try lia; try (exfalso; lra).
Qed.

(** X9.  The core keeps the count between 0 and 120 as well, when the
    clock does not go back: with the quota used up it sleeps to the end
    of the window and starts a new one before it counts the edit. *)
Theorem core_edit_count_within_quota (w : world) :
  (forall k, 0 <= lag w k) ->
  quota_within (self w) ->
  quota_within (self (snd (Core._check_edit_rate_limit w))).
Proof.
  unfold quota_within. intros Hlag Hq.
  pose proof (Hlag (n_time w)) as H0. pose proof (Hlag (S (n_time w))) as H1.
  unfold Core._check_edit_rate_limit. gate_crunch.
  all: q_facts; try lia; try (exfalso; lra).
Qed.

(** * Further properties of the core *)

Ltac effect_intro new :=
  split; [reflexivity |]; split; [reflexivity |]; exists new;
  cbn [self rnd trace clock];
  split; [reflexivity |]; split; [reflexivity |];
  split; [cbn; lia |]; split; [cbn; lia |].

Ltac count_value :=
  match goal with
  | |- context [inject_Z (Z.of_nat ?n)] =>
      let v := eval vm_compute in (inject_Z (Z.of_nat n)) in
      change (inject_Z (Z.of_nat n)) with v
  end.

Lemma calls_and_sleeps_refl (w : world) : calls_and_sleeps 0 0 w w.
Proof. effect_intro (@nil event). split; [lra | intros _; count_value; lra]. Qed.

Lemma count_gate_app (a b : list event) :
  count_gate (a ++ b) = (count_gate a + count_gate b)%nat.
Proof. unfold count_gate. rewrite List.filter_app, List.length_app. reflexivity. Qed.

Lemma count_provider_app (a b : list event) :
  count_provider (a ++ b) = (count_provider a + count_provider b)%nat.
Proof. unfold count_provider. rewrite List.filter_app, List.length_app. reflexivity. Qed.

Lemma calls_and_sleeps_trans (p1 s1 p2 s2 : nat) (w w1 w2 : world) :
  calls_and_sleeps p1 s1 w w1 -> calls_and_sleeps p2 s2 w1 w2 ->
  calls_and_sleeps (p1 + p2) (s1 + s2) w w2.
Proof.
  intros (Hs1 & Hr1 & new1 & Ht1 & Hg1 & Hp1 & Hc1 & Hk1 & Hb1)
         (Hs2 & Hr2 & new2 & Ht2 & Hg2 & Hp2 & Hc2 & Hk2 & Hb2).
  split; [congruence |]. split; [congruence |].
  exists (new2 ++ new1)%list.
  split; [rewrite Ht2, Ht1, app_assoc; reflexivity |].
  rewrite count_gate_app, count_provider_app, count_sleep_app.
  split; [lia |]. split; [lia |]. split; [lia |]. split; [lra |].
  intro Hrnd. specialize (Hb1 Hrnd).
  assert (Hrnd1 : forall k, 0 <= rnd w1 k <= 1) by (rewrite Hr1; exact Hrnd).
  specialize (Hb2 Hrnd1).
  rewrite Nat2Z.inj_add, inject_Z_plus. lra.
Qed.

Lemma calls_and_sleeps_weaken (p s p' s' : nat) (w w' : world) :
  (p <= p')%nat -> (s <= s')%nat ->
  calls_and_sleeps p s w w' -> calls_and_sleeps p' s' w w'.
Proof.
  intros Hp Hs (H1 & H2 & new & Ht & Hg & Hcp & Hcs & Hk & Hb).
  split; [assumption |]. split; [assumption |].
  exists new. repeat split; try assumption; try lia.
  intro Hrnd. specialize (Hb Hrnd).
  assert (inject_Z (Z.of_nat s) <= inject_Z (Z.of_nat s')).
  { rewrite <- Zle_Qle. lia. }
  lra.
Qed.

Lemma provider_call_effect (w : world) :
  exists r w', Core.provider_call w = (r, w') /\ calls_and_sleeps 1 0 w w'
               /\ (forall v, r = Ok v <-> provider w (n_provider w) = Returned v).
Proof.
  unfold Core.provider_call.
  destruct (provider w (n_provider w)) as [v | s |];
    (eexists; eexists; split; [reflexivity |]; split;
     [ effect_intro [EvProvider]; split; [lra | intros _; count_value; lra]
     | intro v'; split; congruence ]).
Qed.

Lemma flood_seconds_le (s : Z) : Core.flood_seconds s <= 3600.
Proof.
  unfold Core.flood_seconds, py_min.
  destruct (Qltb _ _) eqn:E; [apply Qltb_lt in E | apply Qltb_ge in E]; lra.
Qed.

Lemma call_with_flood_retry_effect (w : world) :
  exists r w', Core.call_with_flood_retry w = (r, w') /\ calls_and_sleeps 2 1 w w'.
Proof.
  unfold Core.call_with_flood_retry, try_except, Core.provider_call.
  destruct (provider w (n_provider w)) as [v | s |].
  - eexists; eexists; split; [reflexivity |].
    effect_intro [EvProvider]. split; [lra | intros _; count_value; lra].
  - pose proof (flood_seconds_le s) as Hle.
    destruct (Qltb 0 (Core.flood_seconds s)) eqn:E.
    + do 2 run_monad. unfold asyncio_sleep.
      lazymatch goal with
      | |- context [if Qltb 0 ?d then _ else _] => destruct (Qltb 0 d) eqn:E2
      end; run_monad;
        destruct (provider w (S (n_provider w))) as [v | s' |];
        (eexists; eexists; split; [reflexivity |];
         effect_intro [EvProvider; EvSleep (Core.flood_seconds s + (0 + (1 - 0) * rnd w (n_rnd w))); EvProvider];
         split; [try (apply Qltb_lt in E2); lra
                | intros Hrnd; specialize (Hrnd (n_rnd w)); count_value; lra]).
    + run_monad. eexists; eexists; split; [reflexivity |].
      effect_intro [EvProvider]. split; [lra | intros _; count_value; lra].
  - run_monad. eexists; eexists; split; [reflexivity |].
    effect_intro [EvProvider]. split; [lra | intros _; count_value; lra].
Qed.

Lemma call_with_flood_retry_trace (w : world) :
  exists r w' p,
    Core.call_with_flood_retry w = (r, w')
    /\ grows (trace w) 0 p (trace w') /\ (1 <= p <= 2)%nat.
Proof.
  unfold Core.call_with_flood_retry. crunch;
    (eexists; eexists; eexists; split; [reflexivity |]; run_monad;
     split; [repeat econstructor | lia]).
Qed.

Lemma core_gate_run (w : world) :
  exists w', Core._wait_for_rate_limit w = (Ok tt, w')
             /\ grows (trace w) 1 0 (trace w')
             /\ _last_message_time_per_chat (self w')
                = _last_message_time_per_chat (self w).
Proof.
  unfold Core._wait_for_rate_limit. crunch;
    (eexists; split; [reflexivity |]; run_monad;
     split; [repeat econstructor | reflexivity]).
Qed.

Lemma core_cadence_run (c : chat_id) (w : world) :
  exists w' t, Core._check_message_rate_limit c w = (Ok tt, w')
               /\ grows (trace w) 0 0 (trace w')
               /\ _last_message_time_per_chat (self w')
                  = <[c := t]> (_last_message_time_per_chat (self w)).
Proof.
  unfold Core._check_message_rate_limit. crunch;
    (eexists; eexists; split; [reflexivity |]; run_monad;
     split; [repeat econstructor | reflexivity]).
Qed.

Lemma forward_with_flood_retry_run (w : world) :
  exists r w' p,
    CoreOps.forward_with_flood_retry w = (Ok r, w')
    /\ self w' = self w
    /\ grows (trace w) 0 p (trace w') /\ (1 <= p <= 6)%nat.
Proof.
  unfold CoreOps.forward_with_flood_retry, CoreOps.resolve_both_and_forward. crunch;
    (eexists; eexists; eexists; split; [reflexivity |]; run_monad;
     split; [reflexivity |]; split; [repeat econstructor | lia]).
Qed.

Lemma resolve_users_run (users : list chat_id) (w : world) :
  exists r w' k,
    CoreOps.resolve_users users w = (r, w')
    /\ only_calls k w w'
    /\ (k <= List.length users)%nat
    /\ match r with
       | Ok _ => k = List.length users
                 /\ forall i, (i < k)%nat -> returned (provider w (n_provider w + i)) = true
       | Raise _ => exists j, k = S j /\ returned (provider w (n_provider w + j)) = false
       end.
Proof.
  revert w. induction users as [| u rest IH]; intro w; cbn [CoreOps.resolve_users].
  - exists (Ok tt), w, 0%nat. split; [reflexivity |]. split.
    + unfold only_calls. rewrite Nat.add_0_r. repeat split. intros i Hi. lia.
    + split; [cbn; lia |]. split; [reflexivity |]. intros i Hi. lia.
  - unfold bind, Core.provider_call.
    destruct (provider w (n_provider w)) as [v | s |] eqn:E.
    + match goal with
      | |- context [CoreOps.resolve_users rest ?w1] =>
          destruct (IH w1) as (r & w' & k & Hrun & Hcalls & Hk & Hr); rewrite Hrun
      end.
      destruct Hcalls as (H1 & H2 & H3 & H4 & H5 & H6).
      cbn [self clock provider n_provider trace] in *.
      assert (Hall : forall i, (S i < S k)%nat ->
                returned (provider w (n_provider w + i)) = true).
      { intros [| i] Hi.
        - rewrite Nat.add_0_r, E. reflexivity.
        - replace (n_provider w + S i)%nat with (S (n_provider w) + i)%nat by lia.
          apply H6. lia. }
      exists r, w', (S k). split; [reflexivity |]. split.
      * unfold only_calls. repeat split; try assumption.
        -- rewrite H4. lia.
        -- rewrite H5. cbn [repeat]. rewrite repeat_cons, <- app_assoc. reflexivity.
      * split; [cbn; lia |]. destruct r as [[] | e].
        -- destruct Hr as (-> & Hr). split; [reflexivity |].
           intros [| i] Hi.
           ++ rewrite Nat.add_0_r, E. reflexivity.
           ++ replace (n_provider w + S i)%nat with (S (n_provider w) + i)%nat by lia.
              apply Hr. cbn in Hi. lia.
        -- destruct Hr as (j & -> & Hr). exists (S j). split; [reflexivity |].
           replace (n_provider w + S j)%nat with (S (n_provider w) + j)%nat by lia.
           exact Hr.
    + eexists; eexists; exists 1%nat. split; [reflexivity |]. split.
      * unfold only_calls. cbn [self clock provider n_provider trace repeat app].
        repeat split; try lia.
      * split; [cbn; lia |]. exists 0%nat. split; [reflexivity |].
        rewrite Nat.add_0_r, E. reflexivity.
    + eexists; eexists; exists 1%nat. split; [reflexivity |]. split.
      * unfold only_calls. cbn [self clock provider n_provider trace repeat app].
        repeat split; try lia.
      * split; [cbn; lia |]. exists 0%nat. split; [reflexivity |].
        rewrite Nat.add_0_r, E. reflexivity.
Qed.

Section CoreOpsFacts.

Variable int_of_str : string -> option Z.

Local Abbreviation validate := (Core.validate_id_value int_of_str).

Lemma validate_items_spec (items acc : list chat_id) :
  match CoreOps.validate_items int_of_str items acc with
  | inl vs => exists vs', vs = (acc ++ vs')%list
                          /\ Forall2 (fun x v => validate x = Some v) items vs'
  | inr bad => exists pre post,
      items = (pre ++ bad :: post)%list
      /\ Forall (fun x => validate x <> None) pre
      /\ validate bad = None
  end.
Proof.
  revert acc. induction items as [| item rest IH]; intro acc; cbn [CoreOps.validate_items].
  - exists []. split; [rewrite app_nil_r; reflexivity | constructor].
  - destruct (validate item) as [v |] eqn:E.
    + specialize (IH (acc ++ [v])%list).
      destruct (CoreOps.validate_items int_of_str rest (acc ++ [v])) as [vs | bad].
      * destruct IH as (vs' & -> & HF). exists (v :: vs'). split.
        -- rewrite <- app_assoc. reflexivity.
        -- constructor; assumption.
      * destruct IH as (pre & post & -> & HF & Hbad).
        exists (item :: pre), post. split; [reflexivity |]. split; [| assumption].
        constructor; [congruence | assumption].
    + exists [], rest. split; [reflexivity |]. split; [constructor | assumption].
Qed.

Lemma validate_id_value_fixed (v v' : chat_id) :
  validate v = Some v' -> validate v' = Some v'.
Proof.
  unfold Core.validate_id_value.
  destruct v as [n | s].
  - destruct (Core.in_int64 n) eqn:E; intros [= <-]. rewrite E. reflexivity.
  - destruct (int_of_str s) as [n |] eqn:Ei.
    + destruct (Core.in_int64 n) eqn:E; intros [= <-]. rewrite E. reflexivity.
    + destruct (Core.is_username s) eqn:E; intros [= <-]. rewrite Ei, E. reflexivity.
Qed.

(** X10.  [validate_ids] on a list accepts all the items or none: it
    returns the list of the validated items, in order and one for each
    item, exactly when every item validates; otherwise its error is that of
    the first item that does not validate, whatever comes after it. *)
Theorem validate_ids_all_or_first_offender (l : list chat_id) :
  (forall vs, CoreOps.validate_ids int_of_str (CoreOps.IdList l) = inl vs <->
     exists vl, vs = CoreOps.IdList vl
                /\ Forall2 (fun x v => validate x = Some v) l vl)
  /\ (forall bad, CoreOps.validate_ids int_of_str (CoreOps.IdList l) = inr bad <->
        exists pre post, l = (pre ++ bad :: post)%list
                         /\ Forall (fun x => validate x <> None) pre
                         /\ validate bad = None).
Proof.
  cbn [CoreOps.validate_ids].
  pose proof (validate_items_spec l []) as H.
  destruct (CoreOps.validate_items int_of_str l []) as [vl | bad0].
  - destruct H as (vs' & -> & HF). cbn [app] in *. split.
    + intro vs. split.
      * intros [= <-]. exists vs'. split; [reflexivity | assumption].
      * intros (vl & -> & HF'). f_equal. f_equal.
        clear - HF HF'. revert vl HF'. induction HF; intros vl HF'; inversion HF'; subst.
        -- reflexivity.
        -- f_equal; [congruence | auto].
    + intro bad. split; [discriminate |].
      intros (pre & post & -> & Hpre & Hbad). exfalso.
      clear - HF Hbad. revert vs' HF. induction pre as [| a pre IH]; intros vs' HF.
      * cbn in HF. inversion HF; subst. congruence.
      * cbn in HF. inversion HF; subst. eauto.
  - destruct H as (pre0 & post0 & -> & Hpre0 & Hbad0). split.
    + intro vs. split; [discriminate |].
      intros (vl & _ & HF). exfalso.
      clear - HF Hbad0. revert vl HF. induction pre0 as [| a pre IH]; intros vl HF.
      * cbn in HF. inversion HF; subst. congruence.
      * cbn in HF. inversion HF; subst. eauto.
    + intro bad. split.
      * intros [= <-]. exists pre0, post0. repeat split; assumption.
      * intros (pre & post & Heq & Hpre & Hbad). f_equal.
        clear - Heq Hpre Hbad Hpre0 Hbad0.
        revert pre Heq Hpre. induction pre0 as [| a pre0 IH]; intros pre Heq Hpre.
        -- destruct pre as [| b pre]; cbn in Heq.
           ++ congruence.
           ++ injection Heq as -> _. inversion Hpre; subst. congruence.
        -- destruct pre as [| b pre]; cbn in Heq.
           ++ injection Heq as <- _. inversion Hpre0; subst. congruence.
           ++ injection Heq as -> Heq. inversion Hpre; inversion Hpre0; subst. eauto.
Qed.


Lemma validate_items_fixed (l acc vl : list chat_id) :
  Forall2 (fun x v => validate x = Some v) l vl ->
  CoreOps.validate_items int_of_str vl acc = inl (acc ++ vl)%list.
Proof.
  intro HF. revert acc. induction HF as [| x v l vl Hx _ IH]; intro acc;
    cbn [CoreOps.validate_items].
  - rewrite app_nil_r. reflexivity.
  - rewrite (validate_id_value_fixed _ _ Hx), IH, <- app_assoc. reflexivity.
Qed.

Lemma validate_id_value_canonical (v v' : chat_id) :
  validate v = Some v' -> canonical_id int_of_str v'.
Proof.
  unfold Core.validate_id_value, Core.in_int64.
  destruct v as [n | s].
  - destruct (_ && _) eqn:E; intros [= <-]. cbn. lia.
  - destruct (int_of_str s) as [n |] eqn:Ei.
    + destruct (_ && _) eqn:E; intros [= <-]. cbn. lia.
    + destruct (Core.is_username s) eqn:E; intros [= <-]. cbn. auto.
Qed.

(** X11.  What [validate_ids] returns validates to itself: integers are
    within 64 bits, strings that read as integers have become integers,
    and the strings that remain are user names. *)
Theorem validate_ids_idempotent (p p' : CoreOps.id_param) :
  CoreOps.validate_ids int_of_str p = inl p' ->
  CoreOps.validate_ids int_of_str p' = inl p' /\ canonical int_of_str p'.
Proof.
  destruct p as [| v | l]; cbn [CoreOps.validate_ids].
  - intros [= <-]. split; [reflexivity | exact I].
  - destruct (validate v) as [v' |] eqn:E; intros [= <-].
    cbn [CoreOps.validate_ids canonical].
    rewrite (validate_id_value_fixed _ _ E). split; [reflexivity |].
    eapply validate_id_value_canonical; eassumption.
  - pose proof (validate_items_spec l []) as H.
    destruct (CoreOps.validate_items int_of_str l []) as [vl |]; intros [= <-].
    destruct H as (vs' & -> & HF). cbn [app] in *.
    cbn [CoreOps.validate_ids canonical].
    rewrite (validate_items_fixed _ [] _ HF). split; [reflexivity |].
    clear - HF. induction HF; constructor; [| assumption].
    eapply validate_id_value_canonical; eassumption.
Qed.

(** X12.  [download_media] always returns a reply.  It passes no gate
    and leaves the instance as it was, so it does not record a request
    time; it makes at most five provider calls and sleeps at most twice,
    after a flood wait, for at most 3601 seconds each. *)
Theorem download_media_calls_and_sleeps (chat : chat_id) (w : world) :
  exists r w',
    Core.download_media int_of_str chat w = (Ok r, w')
    /\ calls_and_sleeps 5 2 w w'.
Proof.
  unfold Core.download_media.
  destruct (Core.validate_id_value int_of_str chat) as [c |].
  2:{ eexists; eexists; split; [reflexivity |].
      eapply calls_and_sleeps_weaken; [| | apply calls_and_sleeps_refl]; lia. }
  destruct (call_with_flood_retry_effect w) as (r1 & w1 & H1 & E1).
  destruct (call_with_flood_retry_effect w1) as (r2 & w2 & H2 & E2).
  destruct (provider_call_effect w2) as (r3 & w3 & H3 & E3 & _).
  pose proof (calls_and_sleeps_trans _ _ _ _ _ _ _ E1 E2) as E12.
  pose proof (calls_and_sleeps_trans _ _ _ _ _ _ _ E12 E3) as E123.
  cbn [Nat.add] in E12, E123.
  unfold try_except, bind. rewrite H1.
  destruct r1 as [v1 | e1].
  2:{ eexists; eexists; split; [reflexivity |].
      eapply calls_and_sleeps_weaken; [| | exact E1]; lia. }
  rewrite H2.
  destruct r2 as [v2 | e2].
  2:{ eexists; eexists; split; [reflexivity |].
      eapply calls_and_sleeps_weaken; [| | exact E12]; lia. }
  destruct (value_truthy v2); cbn [negb].
  2:{ eexists; eexists; split; [reflexivity |].
      eapply calls_and_sleeps_weaken; [| | exact E12]; lia. }
  destruct (value_media v2); cbn [negb].
  2:{ eexists; eexists; split; [reflexivity |].
      eapply calls_and_sleeps_weaken; [| | exact E12]; lia. }
  rewrite H3.
  destruct r3 as [v3 | e3].
  2:{ eexists; eexists; split; [reflexivity |]. exact E123. }
  destruct (value_truthy v3); eexists; eexists; (split; [reflexivity | exact E123]).
Qed.


(** X13.  [get_messages] passes the global gate before each of its two
    fetches: one acquisition, then one provider call or two with the retry
    after a flood wait; when the first fetch fails that is all and the
    reply is an error text, otherwise the same follows once more.  With an
    id that does not validate it returns at once. *)
Theorem get_messages_gate_per_fetch (chat : chat_id) (w : world) :
  match Core.validate_id_value int_of_str chat with
  | None => CoreOps.get_messages int_of_str chat w = (Ok CoreOps.PageInvalidId, w)
  | Some _ =>
      exists r w' mid,
        CoreOps.get_messages int_of_str chat w = (Ok r, w')
        /\ fetch_gated (trace w) mid
        /\ (mid = trace w' /\ r = CoreOps.PageError \/ fetch_gated mid (trace w'))
  end.
Proof.
  unfold CoreOps.get_messages.
  destruct (Core.validate_id_value int_of_str chat) as [c |]; [| reflexivity].
  destruct (core_gate_trace w) as (w1 & H1 & G1).
  destruct (call_with_flood_retry_trace w1) as (r2 & w2 & p2 & H2 & G2 & Hp2).
  destruct (core_gate_trace w2) as (w3 & H3 & G3).
  destruct (call_with_flood_retry_trace w3) as (r4 & w4 & p4 & H4 & G4 & Hp4).
  unfold CoreOps.fetch_page, try_except.
  unfold bind at 1. rewrite H1. unfold bind at 1. rewrite H2.
  destruct r2 as [v2 | e2].
  2:{ exists CoreOps.PageError, w2, (trace w2). split; [reflexivity |].
      split; [exists (trace w1), p2; auto |]. left. split; reflexivity. }
  unfold bind at 1. rewrite H3. unfold bind at 1. rewrite H4.
  assert (F1 : fetch_gated (trace w) (trace w2)) by (exists (trace w1), p2; auto).
  assert (F2 : fetch_gated (trace w2) (trace w4)) by (exists (trace w3), p4; auto).
  destruct r4 as [v4 | e4].
  - destruct (value_truthy v4); cbn [negb];
      (eexists; exists w4, (trace w2); split; [reflexivity |]; split; [exact F1 | right; exact F2]).
  - exists CoreOps.PageError, w4, (trace w2). split; [reflexivity |].
    split; [exact F1 | right; exact F2].
Qed.

(** X14.  [forward_message] paces the destination only: of the recorded
    message times it sets that of the validated destination chat and no
    other, the source chat included; it acquires the global gate once,
    before its provider calls, which are three when all goes well and at
    most six with the retry after a flood wait. *)
Theorem forward_message_destination_cadence (from_chat to_chat : chat_id) (w : world) :
  match Core.validate_id_value int_of_str from_chat,
        Core.validate_id_value int_of_str to_chat with
  | Some _, Some dest =>
      exists r w' at_gate p t,
        CoreOps.forward_message int_of_str from_chat to_chat w = (Ok r, w')
        /\ grows (trace w) 1 0 at_gate
        /\ grows at_gate 0 p (trace w')
        /\ (1 <= p <= 6)%nat
        /\ _last_message_time_per_chat (self w')
           = <[dest := t]> (_last_message_time_per_chat (self w))
  | _, _ =>
      CoreOps.forward_message int_of_str from_chat to_chat w = (Ok Core.InvalidId, w)
  end.
Proof.
  unfold CoreOps.forward_message.
  destruct (Core.validate_id_value int_of_str from_chat) as [src |]; [| reflexivity].
  destruct (Core.validate_id_value int_of_str to_chat) as [dest |]; [| reflexivity].
  destruct (core_cadence_run dest w) as (w1 & t & H1 & G1 & M1).
  destruct (core_gate_run w1) as (w2 & H2 & G2 & M2).
  destruct (forward_with_flood_retry_run w2) as (r & w3 & p & H3 & S3 & G3 & Hp).
  pose proof (grows_trans _ _ _ _ _ _ _ G1 G2) as G12. cbn [Nat.add] in G12.
  exists r, w3, (trace w2), p, t.
  split.
  { unfold bind at 1. rewrite H1. unfold bind at 1. rewrite H2. exact H3. }
  repeat split; try assumption; try lia.
  rewrite S3, M2, M1. reflexivity.
Qed.


(** X15.  [create_group] with valid users makes one provider call for
    each user and one more, stops at the first one that does not return,
    passes no gate and never sleeps: it succeeds exactly when the calls
    for the users return and the last call returns a result whose first
    chat has an id; a flood wait is not retried.  With a user that does
    not validate it returns the validation error without any call. *)
Theorem create_group_calls (first_chat_id : provider_value -> option Z)
        (users : list chat_id) (w : world) :
  match CoreOps.validate_ids int_of_str (CoreOps.IdList users) with
  | inr _ =>
      CoreOps.create_group int_of_str first_chat_id users w = (Ok Core.InvalidId, w)
  | inl _ =>
      exists r w' k,
        CoreOps.create_group int_of_str first_chat_id users w = (Ok r, w')
        /\ only_calls k w w'
        /\ (1 <= k <= S (List.length users))%nat
        /\ (r = Core.Success <->
            (forall i, (i < List.length users)%nat ->
                       returned (provider w (n_provider w + i)) = true)
            /\ returned_chat first_chat_id
                 (provider w (n_provider w + List.length users)) = true)
        /\ (r = Core.Success -> k = S (List.length users))
  end.
Proof.
  unfold CoreOps.create_group. cbn [CoreOps.validate_ids].
  pose proof (validate_items_spec users []) as Hv.
  destruct (CoreOps.validate_items int_of_str users []) as [vl | bad]; [| reflexivity].
  destruct Hv as (vs' & -> & HF). cbn [app].
  apply Forall2_length in HF. rewrite HF.
  destruct (resolve_users_run vs' w) as (r1 & w1 & k & H1 & C1 & Hk & Hr).
  unfold try_except, bind. rewrite H1.
  destruct C1 as (S1 & K1 & P1 & N1 & T1 & A1).
  destruct r1 as [[] | e].
  - destruct Hr as (-> & Hall).
    unfold Core.provider_call. rewrite P1, N1.
    assert (Hcalls : forall w2,
               self w2 = self w1 -> clock w2 = clock w1 -> provider w2 = provider w ->
               n_provider w2 = S (n_provider w + List.length vs') ->
               trace w2 = EvProvider :: trace w1 ->
               only_calls (S (List.length vs')) w w2).
    { intros w2 E1 E2 E3 E4 E5. unfold only_calls.
      rewrite E1, E2, E3, E4, E5, S1, K1, T1.
      repeat split; [lia |]. intros i Hi. apply Hall. lia. }
    unfold returned_chat.
    destruct (provider w (n_provider w + List.length vs')) as [v | s |] eqn:E.
    + destruct (first_chat_id v) as [c |] eqn:Ec; unfold ret, raise;
        eexists; eexists; exists (S (List.length vs'));
        (split; [reflexivity |]);
        (split; [apply Hcalls; reflexivity |]); (split; [lia |]).
      * split; [| reflexivity]. split; [| reflexivity]. intros _. split; [exact Hall | reflexivity].
      * split; [| discriminate]. split; [discriminate |]. intros [_ Hc]. discriminate Hc.
    + eexists; eexists; exists (S (List.length vs'));
        (split; [reflexivity |]);
        (split; [apply Hcalls; reflexivity |]); (split; [lia |]).
      split; [| discriminate]. split; [discriminate |]. intros [_ Hc]. discriminate Hc.
    + eexists; eexists; exists (S (List.length vs'));
        (split; [reflexivity |]);
        (split; [apply Hcalls; reflexivity |]); (split; [lia |]).
      split; [| discriminate]. split; [discriminate |]. intros [_ Hc]. discriminate Hc.
  - destruct Hr as (j & -> & Hj).
    exists Core.ErrorText, w1, (S j). split; [reflexivity |]. split.
    + unfold only_calls. repeat split; assumption.
    + split; [lia |]. split; [| discriminate]. split; [discriminate |].
      intros [Hall' _]. rewrite Hall' in Hj by lia. discriminate.
Qed.

(** X16.  [delete_message] is not rate limited: it passes no gate, never
    sleeps, makes one or two provider calls and succeeds exactly when both
    return; a flood wait is reported as an error without a retry. *)
Theorem delete_message_not_limited (chat : chat_id) (w : world) :
  match Core.validate_id_value int_of_str chat with
  | None => CoreOps.delete_message int_of_str chat w = (Ok Core.InvalidId, w)
  | Some _ =>
      exists r w' k,
        CoreOps.delete_message int_of_str chat w = (Ok r, w')
        /\ only_calls k w w'
        /\ (1 <= k <= 2)%nat
        /\ (r = Core.Success <->
            returned (provider w (n_provider w)) = true
            /\ returned (provider w (S (n_provider w))) = true)
  end.
Proof.
  unfold CoreOps.delete_message.
  destruct (Core.validate_id_value int_of_str chat) as [c |]; [| reflexivity].
  unfold try_except, Core.resolve_and_act, bind, Core.provider_call, ret.
  destruct (provider w (n_provider w)) as [v1 | s1 |] eqn:E1; cbn [n_provider provider].
  1: destruct (provider w (S (n_provider w))) as [v2 | s2 |] eqn:E2.
  1-3: eexists; eexists; exists 2%nat; (split; [reflexivity |]); split;
    [ unfold only_calls; cbn [self clock provider n_provider trace repeat app];
      repeat split; try lia;
      intros [| i] Hi; [rewrite Nat.add_0_r, E1; reflexivity | lia]
    | split; [lia |] ].
  4-5: eexists; eexists; exists 1%nat; (split; [reflexivity |]); split;
    [ unfold only_calls; cbn [self clock provider n_provider trace repeat app];
      repeat split; try lia
    | split; [lia |] ].
  all: cbn [returned]; split; try discriminate; try (intros [? ?]; discriminate).
  all: intros _; split; reflexivity.
Qed.

End CoreOpsFacts.


(** * Replies of the core in the HTTP interface *)

Lemma all_chars_app (p : ascii -> bool) (a b : string) :
  all_chars p (a ++ b) = all_chars p a && all_chars p b.
Proof.
  induction a as [| c a IH]; [reflexivity |].
  change (String c a ++ b) with (String c (a ++ b)). cbn [all_chars].
  rewrite IH, andb_assoc. reflexivity.
Qed.

Lemma all_chars_substring (p : ascii -> bool) (n : nat) (s : string) :
  all_chars p s = true -> all_chars p (substring 0 n s) = true.
Proof.
  revert s. induction n as [| n IH]; intros [| c s]; cbn [substring all_chars]; auto.
  intro H. apply andb_true_iff in H as [Hc Hs]. rewrite Hc. cbn [andb]. auto.
Qed.

(** A text without the first character of [needle] does not contain it. *)
Lemma contains_first_char (c : ascii) (needle s : string) :
  all_chars (fun x => negb (Ascii.eqb x c)) s = true ->
  contains (String c needle) s = false.
Proof.
  induction s as [| b s IH]; cbn [contains strip_prefix all_chars]; [reflexivity |].
  intro H. apply andb_true_iff in H as [Hb Hs].
  apply negb_true_iff in Hb. rewrite Ascii.eqb_sym, Hb. auto.
Qed.

Lemma uint_no_capital_e (d : Decimal.uint) :
  no_capital_e (NilEmpty.string_of_uint d) = true.
Proof.
  unfold no_capital_e.
  induction d; cbn [NilEmpty.string_of_uint all_chars]; try rewrite IHd; reflexivity.
Qed.

Lemma int_no_capital_e (n : Z) :
  no_capital_e (NilZero.string_of_int (Z.to_int n)) = true.
Proof.
  assert (H : forall d, no_capital_e (NilZero.string_of_uint d) = true).
  { intro d. unfold NilZero.string_of_uint.
    destruct d; try apply uint_no_capital_e. reflexivity. }
  destruct (Z.to_int n) as [d | d]; cbn [NilZero.string_of_int].
  - apply H.
  - unfold no_capital_e in *. cbn [all_chars]. rewrite H. reflexivity.
Qed.

Lemma no_capital_e_success (msg : string) :
  String.prefix "An error occurred" msg = false ->
  no_capital_e msg = true ->
  Api.make_response msg = Api.mkApiResponse true (Some msg) None.
Proof.
  intros Hp He. unfold Api.make_response. rewrite Hp.
  rewrite contains_first_char; [reflexivity |].
  apply all_chars_substring. exact He.
Qed.

(** X17.  [make_response] takes the message of an invalid id for a
    result: the message that [validate_id_value] gives for an id that does
    not validate, with a parameter name and an id without a capital E, is
    answered with [success = true] and the message as data, while the text
    of [log_and_format_error] is answered with [success = false]. *)
Theorem invalid_id_answered_as_success (int_of_str : string -> option Z)
        (value : chat_id) (param_name msg error_code : string) :
  CoreOps.validate_id_error int_of_str value param_name = Some msg ->
  no_capital_e param_name = true ->
  (forall s, value = inr s -> no_capital_e s = true) ->
  Core.validate_id_value int_of_str value = None
  /\ Api.make_response msg = Api.mkApiResponse true (Some msg) None
  /\ Api.make_response (CoreOps.error_text error_code)
     = Api.mkApiResponse false None (Some (CoreOps.error_text error_code)).
Proof.
  intros Hmsg Hp Hs.
  split; [| split; [| reflexivity]].
  - unfold CoreOps.validate_id_error in Hmsg. unfold Core.validate_id_value.
    destruct value as [n | s].
    + destruct (Core.in_int64 n); [discriminate | reflexivity].
    + destruct (int_of_str s) as [n |].
      * destruct (Core.in_int64 n); [discriminate | reflexivity].
      * destruct (Core.is_username s); [discriminate | reflexivity].
  - apply no_capital_e_success.
    + unfold CoreOps.validate_id_error in Hmsg.
      destruct value as [n | s]; [| destruct (int_of_str s)];
        match type of Hmsg with
        | (if ?b then _ else _) = _ => destruct b; [discriminate |]
        end; injection Hmsg as <-; reflexivity.
    + unfold CoreOps.validate_id_error in Hmsg. unfold no_capital_e in *.
      destruct value as [n | s].
      * clear Hs. pose proof (int_no_capital_e n) as Hn. unfold no_capital_e in Hn.
        destruct (Core.in_int64 n); [discriminate |]. injection Hmsg as <-.
        rewrite !all_chars_app, Hp, Hn. reflexivity.
      * specialize (Hs s eq_refl).
        destruct (int_of_str s) as [n |];
          match type of Hmsg with
          | (if ?b then _ else _) = _ => destruct b; [discriminate |]
          end; injection Hmsg as <-;
          rewrite !all_chars_app, Hp, Hs; reflexivity.
Qed.

(** * The further properties at concrete worlds *)


(** There the client sleeps 0.11 seconds. *)
Example edited_recently_sleeps :
  match trace (snd (_check_edit_rate_limit edited_recently)) with
  | [EvSleep d] => d == 11 # 100
  | _ => False
  end.
Proof. vm_compute. reflexivity. Qed.


Lemma client_edit_count_within_quota_witness :
  quota_within (self (snd (_check_edit_rate_limit quota_used))).
Proof.
  apply (client_edit_count_within_quota quota_used).
  unfold quota_within. cbn. lia.
Defined.

Lemma core_edit_count_within_quota_witness :
  quota_within (self (snd (Core._check_edit_rate_limit quota_used))).
Proof.
  apply (core_edit_count_within_quota quota_used).
  - intros [| k]; vm_compute; discriminate.
  - unfold quota_within. cbn. lia.
Defined.

(** With a clock that goes back during the sleep the core counts a 121st
    edit in the window. *)
Example core_counts_when_clock_goes_back :
  _edit_count_last_hour (self (snd (Core._check_edit_rate_limit clock_set_back)))
  = 121%Z.
Proof. vm_compute. reflexivity. Qed.

Lemma validate_ids_idempotent_witness :
  CoreOps.validate_ids decimal_int
    (CoreOps.IdList [inl 7%Z; inr "-1001234567890"; inr "@channel"])
  = inl (CoreOps.IdList [inl 7%Z; inl (-1001234567890)%Z; inr "@channel"])
  /\ CoreOps.validate_ids decimal_int
       (CoreOps.IdList [inl 7%Z; inl (-1001234567890)%Z; inr "@channel"])
     = inl (CoreOps.IdList [inl 7%Z; inl (-1001234567890)%Z; inr "@channel"])
  /\ canonical decimal_int
       (CoreOps.IdList [inl 7%Z; inl (-1001234567890)%Z; inr "@channel"]).
Proof.
  split; [vm_compute; reflexivity |].
  apply (validate_ids_idempotent decimal_int
           (CoreOps.IdList [inl 7%Z; inr "-1001234567890"; inr "@channel"])).
  vm_compute. reflexivity.
Defined.

(** The first item that does not validate is the one reported. *)
Example validate_ids_first_offender :
  CoreOps.validate_ids decimal_int
    (CoreOps.IdList [inl 7%Z; inr "abc"; inr "@channel"; inr "x y"])
  = inr (inr "abc").
Proof. vm_compute. reflexivity. Qed.

(** A user name followed by a newline validates, as [$] matches before a
    final newline. *)
Example username_with_final_newline :
  Core.validate_id_value decimal_int (inr (String.append "@channel" (String "010"%char EmptyString)))
  <> None.
Proof. vm_compute. discriminate. Qed.

Lemma invalid_id_answered_as_success_witness :
  Core.validate_id_value decimal_int (inl (2 ^ 63)%Z) = None
  /\ Api.make_response "Invalid chat_id: 9223372036854775808. ID is out of range."
     = Api.mkApiResponse true
         (Some "Invalid chat_id: 9223372036854775808. ID is out of range.") None
  /\ Api.make_response (CoreOps.error_text "CHAT-ERR-042")
     = Api.mkApiResponse false None (Some (CoreOps.error_text "CHAT-ERR-042")).
Proof.
  apply (invalid_id_answered_as_success decimal_int (inl (2 ^ 63)%Z) "chat_id").
  - vm_compute. reflexivity.
  - vm_compute. reflexivity.
  - intros s Hs. discriminate Hs.
Defined.

(** An id with a capital E in the first 50 characters of the message is
    answered as an error. *)
Example invalid_id_with_capital_e :
  Api.success (Api.make_response "Invalid chat_id: 'Error!'. Must be integer ID or username.")
  = false.
Proof. vm_compute. reflexivity. Qed.

(** With a flood wait at the first and the third call [download_media] makes five
    provider calls and sleeps twice, 30.5 seconds each. *)
Example download_media_flooded :
  let '(r, w') := Core.download_media decimal_int chat_a flooded in
  r = Ok Core.Success
  /\ count_provider (trace w') = 5%nat
  /\ count_sleep (trace w') = 2%nat
  /\ clock w' == 61.
Proof. vm_compute. repeat split; reflexivity. Qed.

(** There [get_messages] passes the gate twice, each time before a
    provider call and its retry. *)
Example get_messages_flooded :
  trace (snd (CoreOps.get_messages decimal_int chat_a flooded))
  = [EvProvider; EvSleep (61 # 2); EvProvider; EvGate;
     EvProvider; EvSleep (61 # 2); EvProvider; EvGate].
Proof. vm_compute. reflexivity. Qed.

(** [create_group] and [delete_message] stop at the flood wait. *)
Example create_group_flooded :
  fst (CoreOps.create_group decimal_int (fun _ => Some 1%Z) [chat_a; chat_b] flooded)
  = Ok Core.ErrorText
  /\ trace (snd (CoreOps.create_group decimal_int (fun _ => Some 1%Z)
                   [chat_a; chat_b] flooded)) = [EvProvider]
  /\ trace (snd (CoreOps.delete_message decimal_int chat_a flooded)) = [EvProvider].
Proof. vm_compute. repeat split; reflexivity. Qed.

(** With every call answered, [create_group] succeeds when the result
    has a chat, and reports an error after the same three calls when it
    has none. *)
Example create_group_without_chat :
  fst (CoreOps.create_group decimal_int (fun _ => Some 1%Z) [chat_a; chat_b] served)
  = Ok Core.Success
  /\ fst (CoreOps.create_group decimal_int (fun _ => None) [chat_a; chat_b] served)
     = Ok Core.ErrorText
  /\ trace (snd (CoreOps.create_group decimal_int (fun _ => None) [chat_a; chat_b] served))
     = [EvProvider; EvProvider; EvProvider].
Proof. vm_compute. repeat split; reflexivity. Qed.

(** Forwarding from one chat to another records a time for the second
    one only. *)
Example forward_message_records_destination :
  let w' := snd (CoreOps.forward_message decimal_int chat_a chat_b served) in
  _last_message_time_per_chat (self w') !! chat_a = None
  /\ _last_message_time_per_chat (self w') !! chat_b = Some 0.
Proof. vm_compute. split; reflexivity. Qed.
